(** * libavformat/tcp.c : the TCP protocol handler

    A shallow embedding of [tcp_open], [tcp_read], [tcp_write], [tcp_close]
    and [tcp_get_file_handle].  The operating system and the helper
    functions of the library are an explicit interface ([OS]) over an
    abstract world; every call the C code makes on the world is threaded
    through it and recorded, with its result, in a history of events (the
    helpers that only compute on their arguments, such as av_url_split and
    strcmp, are plain functions and are not recorded).  The
    goto-structured body of [tcp_open] is a machine whose program points
    are the C labels ([restart], [redo], [fail], [fail1]) and the heads of
    the blocks between them. *)

From Stdlib Require Import ZArith List String Ascii Bool Lia DecimalString.
Import ListNotations.
Local Open Scope Z_scope.

(** ** Constants

    The headers that define the constants below (libavutil/error.h,
    libavutil/common.h, avio.h and the system's errno.h, sys/socket.h and
    poll.h) are not part of the translated source; the numbers are the ones
    of Linux, where errno values are positive. *)

(** Modelled from the spec: the macro AVERROR of libavutil/error.h, which
    turns an errno value into the negative error value of the shared error
    taxonomy. *)
Definition AVERROR (e : Z) : Z := - e.

(** Modelled from the spec: errno.h's EINTR, the interruption class. *)
Definition EINTR : Z := 4.
(** Modelled from the spec: errno.h's EIO, the value behind both
    ResolutionFailure and ConnectFailure. *)
Definition EIO : Z := 5.
(** Modelled from the spec: errno.h's EAGAIN, the would-block class. *)
Definition EAGAIN : Z := 11.
(** Modelled from the spec: errno.h's ENOMEM, AllocationFailure. *)
Definition ENOMEM : Z := 12.
(** Modelled from the spec: errno.h's EINVAL, InvalidArgument. *)
Definition EINVAL : Z := 22.
(** Modelled from the spec: errno.h's EINPROGRESS, the in-progress class. *)
Definition EINPROGRESS : Z := 115.

(** Modelled from the spec: the macro MKTAG of libavutil/common.h, four
    characters packed into an integer, the first one lowest. *)
Definition MKTAG (a b c d : ascii) : Z :=
  Z.lor (Z.of_N (N_of_ascii a))
    (Z.lor (Z.shiftl (Z.of_N (N_of_ascii b)) 8)
       (Z.lor (Z.shiftl (Z.of_N (N_of_ascii c)) 16)
          (Z.shiftl (Z.of_N (N_of_ascii d)) 24))).

(** Modelled from the spec: AVERROR_EXIT of libavutil/error.h, the Aborted
    error. *)
Definition AVERROR_EXIT : Z := - MKTAG "E" "X" "I" "T".

(** Modelled from the spec: AF_UNSPEC of sys/socket.h (family-agnostic
    resolution). *)
Definition AF_UNSPEC : Z := 0.
(** Modelled from the spec: SOCK_STREAM of sys/socket.h. *)
Definition SOCK_STREAM : Z := 1.
(** Modelled from the spec: POLLOUT of poll.h, write-readiness. *)
Definition POLLOUT : Z := 4.
(** Modelled from the spec: AVIO_FLAG_NONBLOCK of avio.h, the caller's
    non-blocking flag. *)
Definition AVIO_FLAG_NONBLOCK : Z := 8.

(** ** Data *)

Definition sockaddr := list Byte.byte.

(** [struct addrinfo] without its [ai_next] link: a resolved list is a Rocq
    list of nodes. *)
Record addrinfo := mk_addrinfo {
  ai_flags : Z;
  ai_family : Z;
  ai_socktype : Z;
  ai_protocol : Z;
  ai_addrlen : Z;
  ai_addr : sockaddr
}.

(** What [getaddrinfo] hands back: zero and a non-empty list, or a non-zero
    code and nothing. *)
Inductive gai_result :=
| GaiOk (first : addrinfo) (next : list addrinfo)
| GaiError (code : Z).

(** [typedef struct TCPContext { int fd; } TCPContext;] *)
Record TCPContext := mk_TCPContext { fd : Z }.

(** The fields of [URLContext] the handler touches. *)
Record URLContext := mk_URLContext {
  flags : Z;
  is_streamed : Z;
  priv_data : option TCPContext
}.

(** The output buffers of [av_url_split]. *)
Record url_parts := mk_url_parts {
  proto : string;
  hostname : string;
  port : Z;
  path : string
}.

(** Every call that goes through the world, with its arguments and its
    result.  The helpers that only compute on their arguments
    (av_url_split, av_find_info_tag, strcmp, strchr, snprintf, memset) act
    on no world and are not recorded. *)
Inductive event :=
| EvGetaddrinfo (node service : string) (hints : addrinfo) (res : gai_result)
| EvLog (msg : string)
| EvSocket (cur : addrinfo) (res : Z)
| EvBind (s : Z) (addr : sockaddr) (len : Z) (res : Z)
| EvListen (s : Z) (backlog : Z) (res : Z)
| EvAccept (s : Z) (res : Z)
| EvClose (s : Z)
| EvConnect (s : Z) (addr : sockaddr) (len : Z) (res : Z)
| EvNonblock (s : Z) (enable : Z)
| EvNeterrno (res : Z)
| EvInterrupt (res : Z)
| EvPoll (s : Z) (events : Z) (timeout : Z) (res : Z)
| EvGetsockopt (s : Z) (res : option Z)
| EvMalloc (ok : bool)
| EvFreeaddrinfo
| EvWait (s : Z) (write : Z) (res : Z)
| EvRecv (s : Z) (size : Z) (res : Z)
| EvSend (s : Z) (buf : list Byte.byte) (size : Z) (res : Z)
| EvFree.

(** ** The environment

    Everything [tcp.c] calls and does not define.  [W] is the state of the
    world (descriptor table, errno, the network, the clock ...). *)
Record OS (W : Type) := mk_OS {
  av_url_split : Z -> Z -> Z -> Z -> string -> url_parts;
  gai_strerror : Z -> string;
  strerror : Z -> string;
  getaddrinfo : string -> string -> addrinfo -> W -> gai_result * W;
  freeaddrinfo : list addrinfo -> W -> W;
  av_log : string -> W -> W;
  socket : Z -> Z -> Z -> W -> Z * W;
  bind : Z -> sockaddr -> Z -> W -> Z * W;
  listen : Z -> Z -> W -> Z * W;
  accept : Z -> W -> Z * W;
  closesocket : Z -> W -> W;
  connect : Z -> sockaddr -> Z -> W -> Z * W;
  ff_socket_nonblock : Z -> Z -> W -> W;
  ff_neterrno : W -> Z;
  url_interrupt_cb : W -> Z * W;
  poll : Z -> Z -> Z -> W -> Z * W;
  (* getsockopt(fd, SOL_SOCKET, SO_ERROR, &v, &len): [Some v] when the
     value is stored, [None] when the call fails and stores nothing *)
  getsockopt_so_error : Z -> W -> option Z * W;
  av_malloc : W -> bool * W;
  av_free : W -> W;
  ff_network_wait_fd : Z -> Z -> W -> Z * W;
  recv : Z -> Z -> W -> (Z * list Byte.byte) * W;
  send : Z -> list Byte.byte -> Z -> W -> Z * W
}.

Arguments av_url_split {W}.
Arguments gai_strerror {W}.
Arguments strerror {W}.
Arguments getaddrinfo {W}.
Arguments freeaddrinfo {W}.
Arguments av_log {W}.
Arguments socket {W}.
Arguments bind {W}.
Arguments listen {W}.
Arguments accept {W}.
Arguments closesocket {W}.
Arguments connect {W}.
Arguments ff_socket_nonblock {W}.
Arguments ff_neterrno {W}.
Arguments url_interrupt_cb {W}.
Arguments poll {W}.
Arguments getsockopt_so_error {W}.
Arguments av_malloc {W}.
Arguments av_free {W}.
Arguments ff_network_wait_fd {W}.
Arguments recv {W}.
Arguments send {W}.

(** ** C library helpers *)

(** [strchr(s, c)]: the suffix of [s] that starts at its first [c]. *)
Fixpoint strchr (s : string) (c : ascii) : option string :=
  match s with
  | EmptyString => None
  | String a s' => if Ascii.eqb a c then Some s else strchr s' c
  end.

(** [strcmp(a, b)] as far as the code looks at it: zero or not. *)
Definition strcmp (a b : string) : Z := if String.eqb a b then 0 else 1.

Fixpoint string_take (n : nat) (s : string) : string :=
  match n, s with
  | S n', String a s' => String a (string_take n' s')
  | _, _ => EmptyString
  end.

(** [snprintf(buf, size, "%d", v)]: the decimal digits of [v], cut to the
    buffer. *)
Definition snprintf_d (size : nat) (v : Z) : string :=
  string_take (Nat.pred size) (NilZero.string_of_int (Z.to_int v)).

(** The longest prefix of [s] with no character that [stop] accepts, and
    what follows it. *)
Fixpoint span_string (stop : ascii -> bool) (s : string) : string * string :=
  match s with
  | EmptyString => (EmptyString, EmptyString)
  | String a s' =>
      if stop a then (EmptyString, s)
      else let (tk, rest) := span_string stop s' in (String a tk, rest)
  end.

Fixpoint string_map (f : ascii -> ascii) (s : string) : string :=
  match s with
  | EmptyString => EmptyString
  | String a s' => String (f a) (string_map f s')
  end.

Definition is_amp (c : ascii) : bool := Ascii.eqb c "&".
Definition is_eq_or_amp (c : ascii) : bool := Ascii.eqb c "=" || Ascii.eqb c "&".
Definition plus_to_space (c : ascii) : ascii := if Ascii.eqb c "+" then " "%char else c.

(** Modelled from the spec: the scan of [av_find_info_tag]
    (libavutil/parseutils.c, not part of the translated source).  The spec
    derives the mode flag from a URI query option named listen; the scan
    looks such an option up.  The string is a sequence of options
    separated by ampersands, each one a name optionally followed by an
    equals sign and a value.  The result is 1 at the first option whose
    name (kept to 127 characters) is [tag1], with the value (a plus sign
    read as a space, cut to the buffer) as the output argument, and 0 when
    no option has that name.  One unit of [fuel] is one option. *)
Fixpoint find_info_tag_loop (fuel : nat) (arg_size : nat) (tag1 p : string)
  : Z * string :=
  match fuel with
  | O => (0, EmptyString)
  | S fuel' =>
      let (name, p1) := span_string is_eq_or_amp p in
      let tag := string_take 127 name in
      let (arg, p2) :=
        match p1 with
        | String "=" p1' =>
            let (v, p2) := span_string is_amp p1' in
            (string_take (Nat.pred arg_size) (string_map plus_to_space v), p2)
        | _ => (EmptyString, p1)
        end in
      if String.eqb tag tag1 then (1, arg)
      else match p2 with
           | String "&" p3 => find_info_tag_loop fuel' arg_size tag1 p3
           | _ => (0, arg)
           end
  end.

(** Modelled from the spec: [av_find_info_tag(arg, arg_size, tag1, info)]
    of libavutil/parseutils.c, not part of the translated source: the scan
    above over [info] without its leading question mark; the pair is the
    returned flag and the contents of [arg]. *)
Definition av_find_info_tag (arg_size : nat) (tag1 info : string) : Z * string :=
  let p := match info with
           | String "?" p' => p'
           | _ => info
           end in
  find_info_tag_loop (S (String.length p)) arg_size tag1 p.

(** ** The body of [tcp_open] as a machine *)

(** Program points: the C labels and the heads of the blocks between
    them. *)
Inductive label :=
| L_restart      (* restart:  fd = socket(...)                      *)
| L_redo         (* redo:     ret = connect(...)                    *)
| L_nonblock     (* ff_socket_nonblock(fd, 1); if (ret < 0) ...     *)
| L_wait         (* head of the for(;;) wait loop                   *)
| L_test_error   (* getsockopt(... SO_ERROR ...) after the loop     *)
| L_alloc        (* s = av_malloc(sizeof(TCPContext))               *)
| L_fail         (* fail:                                           *)
| L_fail1.       (* fail1:                                          *)

Section Machine.

Context {W : Type}.
Variable os : OS W.

(** The locals that change while the candidates are tried, the world, and
    the calls made so far (newest first). *)
Record config := mk_config {
  pc : label;
  l_fd : Z;
  l_ret : Z;
  cur_ai : addrinfo;
  ai_next : list addrinfo;     (* the chain behind cur_ai->ai_next *)
  world : W;
  hist : list event
}.

(** What [tcp_open] leaves behind when it returns. *)
Record outcome := mk_outcome {
  o_ret : Z;
  o_h : URLContext;
  o_world : W;
  o_hist : list event
}.

(** The locals that are fixed once the address list is resolved. *)
Variable listen_socket : Z.
Variable host : string.
Variable prt : Z.
Variable ai : list addrinfo.
Variable h : URLContext.

Definition goto (l : label) (fd' ret' : Z) (c : config) (w : W) (evs : list event)
  : config + outcome :=
  inl (mk_config l fd' ret' (cur_ai c) (ai_next c) w (evs ++ hist c)).

Definition connect_failed_msg (err : Z) : string :=
  ("TCP connection to " ++ host ++ ":" ++ NilZero.string_of_int (Z.to_int prt)
     ++ " failed: " ++ strerror os err ++ String "010" "")%string.

(** restart: lines 74-86. *)
Definition block_restart (c : config) : config + outcome :=
  let cur := cur_ai c in
  let (fd0, w1) :=
    socket os (ai_family cur) (ai_socktype cur) (ai_protocol cur) (world c) in
  if fd0 <? 0 then goto L_fail fd0 (l_ret c) c w1 [EvSocket cur fd0]
  else if negb (listen_socket =? 0) then
    let (r, w2) := bind os fd0 (ai_addr cur) (ai_addrlen cur) w1 in
    let (lr, w3) := listen os fd0 1 w2 in
    let (fd1, w4) := accept os fd0 w3 in
    let w5 := closesocket os fd0 w4 in
    goto L_nonblock fd1 r c w5
      [EvClose fd0; EvAccept fd0 fd1; EvListen fd0 1 lr;
       EvBind fd0 (ai_addr cur) (ai_addrlen cur) r; EvSocket cur fd0]
  else goto L_redo fd0 (l_ret c) c w1 [EvSocket cur fd0].

(** redo: lines 87-89. *)
Definition block_redo (c : config) : config + outcome :=
  let cur := cur_ai c in
  let (r, w1) := connect os (l_fd c) (ai_addr cur) (ai_addrlen cur) (world c) in
  goto L_nonblock (l_fd c) r c w1
    [EvConnect (l_fd c) (ai_addr cur) (ai_addrlen cur) r].

(** Lines 91-105 and 127 (the jump over the if). *)
Definition block_nonblock (c : config) : config + outcome :=
  let w1 := ff_socket_nonblock os (l_fd c) 1 (world c) in
  let e := ff_neterrno os w1 in
  if l_ret c <? 0 then
    if e =? AVERROR EINTR then
      let (i, w2) := url_interrupt_cb os w1 in
      if negb (i =? 0) then
        goto L_fail1 (l_fd c) AVERROR_EXIT c w2
          [EvInterrupt i; EvNeterrno e; EvNonblock (l_fd c) 1]
      else
        goto L_redo (l_fd c) (l_ret c) c w2
          [EvInterrupt i; EvNeterrno e; EvNonblock (l_fd c) 1]
    else if negb (e =? AVERROR EINPROGRESS) && negb (e =? AVERROR EAGAIN) then
      goto L_fail (l_fd c) (l_ret c) c w1
        [EvNeterrno e; EvNonblock (l_fd c) 1]
    else
      goto L_wait (l_fd c) (l_ret c) c w1
        [EvNeterrno e; EvNonblock (l_fd c) 1]
  else
    goto L_alloc (l_fd c) (l_ret c) c w1 [EvNonblock (l_fd c) 1].

(** One turn of the wait loop: lines 107-115. *)
Definition block_wait (c : config) : config + outcome :=
  let (i, w1) := url_interrupt_cb os (world c) in
  if negb (i =? 0) then
    goto L_fail1 (l_fd c) AVERROR_EXIT c w1 [EvInterrupt i]
  else
    let (r, w2) := poll os (l_fd c) POLLOUT 100 w1 in
    if r >? 0 then
      goto L_test_error (l_fd c) r c w2
        [EvPoll (l_fd c) POLLOUT 100 r; EvInterrupt i]
    else
      goto L_wait (l_fd c) r c w2
        [EvPoll (l_fd c) POLLOUT 100 r; EvInterrupt i].

(** Lines 117-126. *)
Definition block_test_error (c : config) : config + outcome :=
  let (v, w1) := getsockopt_so_error os (l_fd c) (world c) in
  let r := match v with
           | Some x => x
           | None => l_ret c
           end in
  if negb (r =? 0) then
    let w2 := av_log os (connect_failed_msg r) w1 in
    goto L_fail (l_fd c) r c w2
      [EvLog (connect_failed_msg r); EvGetsockopt (l_fd c) v]
  else
    goto L_alloc (l_fd c) r c w1 [EvGetsockopt (l_fd c) v].

(** Lines 127-136. *)
Definition block_alloc (c : config) : config + outcome :=
  let (ok, w1) := av_malloc os (world c) in
  if negb ok then
    let w2 := freeaddrinfo os ai w1 in
    inr (mk_outcome (AVERROR ENOMEM) h w2
           (EvFreeaddrinfo :: EvMalloc ok :: hist c))
  else
    let w2 := freeaddrinfo os ai w1 in
    inr (mk_outcome 0
           (mk_URLContext (flags h) 1 (Some (mk_TCPContext (l_fd c)))) w2
           (EvFreeaddrinfo :: EvMalloc ok :: hist c)).

(** fail: lines 138-146. *)
Definition block_fail (c : config) : config + outcome :=
  match ai_next c with
  | nxt :: rest =>
      if l_fd c >=? 0 then
        let w1 := closesocket os (l_fd c) (world c) in
        inl (mk_config L_restart (l_fd c) (l_ret c) nxt rest w1
               (EvClose (l_fd c) :: hist c))
      else
        inl (mk_config L_restart (l_fd c) (l_ret c) nxt rest (world c) (hist c))
  | [] => goto L_fail1 (l_fd c) (AVERROR EIO) c (world c) []
  end.

(** fail1: lines 147-151. *)
Definition block_fail1 (c : config) : config + outcome :=
  if l_fd c >=? 0 then
    let w1 := closesocket os (l_fd c) (world c) in
    let w2 := freeaddrinfo os ai w1 in
    inr (mk_outcome (l_ret c) h w2
           (EvFreeaddrinfo :: EvClose (l_fd c) :: hist c))
  else
    let w2 := freeaddrinfo os ai (world c) in
    inr (mk_outcome (l_ret c) h w2 (EvFreeaddrinfo :: hist c)).

Definition step (c : config) : config + outcome :=
  match pc c with
  | L_restart => block_restart c
  | L_redo => block_redo c
  | L_nonblock => block_nonblock c
  | L_wait => block_wait c
  | L_test_error => block_test_error c
  | L_alloc => block_alloc c
  | L_fail => block_fail c
  | L_fail1 => block_fail1 c
  end.

(** [n] blocks from [c], stopping early at a return. *)
Fixpoint steps (n : nat) (c : config) : config + outcome :=
  match n with
  | O => inl c
  | S n' =>
      match step c with
      | inl c' => steps n' c'
      | inr o => inr o
      end
  end.

(** Run to the return; [None] when [fuel] blocks were not enough. *)
Fixpoint run (fuel : nat) (c : config) : option outcome :=
  match fuel with
  | O => None
  | S fuel' =>
      match step c with
      | inl c' => run fuel' c'
      | inr o => Some o
      end
  end.

End Machine.

Arguments config : clear implicits.
Arguments outcome : clear implicits.
Arguments mk_config {W}.
Arguments mk_outcome {W}.

(** ** tcp_open *)

Section Handler.

Context {W : Type}.
Variable os : OS W.

Definition resolve_failed_msg (hostname : string) (code : Z) : string :=
  ("Failed to resolve hostname " ++ hostname ++ ": " ++ gai_strerror os code
     ++ String "010" "")%string.

(** Lines 55-59: the listen flag. *)
Definition tcp_listen_socket (uri : string) : Z :=
  match strchr uri "?" with
  | Some p => if negb (fst (av_find_info_tag 256 "listen" p) =? 0) then 1 else 0
  | None => 0
  end.

(** Lines 60-62: the zeroed hints with family and socket type set. *)
Definition tcp_hints : addrinfo := mk_addrinfo 0 AF_UNSPEC SOCK_STREAM 0 0 [].

(** [tcp_open(h, uri, flags)]: the result (with the context as it is
    left), or [None] when [fuel] blocks of the connect machine were not
    enough. *)
Definition tcp_open (fuel : nat) (h : URLContext) (uri : string) (flags : Z) (w : W)
  : option (outcome W) :=
  let parts := av_url_split os 1024 0 1024 1024 uri in
  if negb (strcmp (proto parts) "tcp" =? 0)
     || (port parts <=? 0) || (port parts >=? 65536)
  then Some (mk_outcome (AVERROR EINVAL) h w [])
  else
    let listen_socket := tcp_listen_socket uri in
    let portstr := snprintf_d 10 (port parts) in
    let (res, w1) := getaddrinfo os (hostname parts) portstr tcp_hints w in
    match res with
    | GaiError code =>
        let msg := resolve_failed_msg (hostname parts) code in
        let w2 := av_log os msg w1 in
        Some (mk_outcome (AVERROR EIO) h w2
                [EvLog msg; EvGetaddrinfo (hostname parts) portstr tcp_hints res])
    | GaiOk first next =>
        run os listen_socket (hostname parts) (port parts) (first :: next) h fuel
          (mk_config L_restart (-1) 0 first next w1
             [EvGetaddrinfo (hostname parts) portstr tcp_hints res])
    end.

(** ** tcp_read, tcp_write, tcp_close, tcp_get_file_handle

    The result is [None] where the C code would dereference a null
    [priv_data]. *)

Record io_result := mk_io_result {
  io_ret : Z;
  io_buf : list Byte.byte;
  io_world : W;
  io_trace : list event      (* oldest first *)
}.

Definition tcp_read (h : URLContext) (buf : list Byte.byte) (size : Z) (w : W)
  : option io_result :=
  match priv_data h with
  | None => None
  | Some s =>
      if Z.land (flags h) AVIO_FLAG_NONBLOCK =? 0 then
        let (r, w1) := ff_network_wait_fd os (fd s) 0 w in
        if r <? 0 then Some (mk_io_result r buf w1 [EvWait (fd s) 0 r])
        else
          let '(r2, data, w2) := recv os (fd s) size w1 in
          Some (mk_io_result (if r2 <? 0 then ff_neterrno os w2 else r2) data w2
                  [EvWait (fd s) 0 r; EvRecv (fd s) size r2])
      else
        let '(r2, data, w2) := recv os (fd s) size w in
        Some (mk_io_result (if r2 <? 0 then ff_neterrno os w2 else r2) data w2
                [EvRecv (fd s) size r2])
  end.

Definition tcp_write (h : URLContext) (buf : list Byte.byte) (size : Z) (w : W)
  : option io_result :=
  match priv_data h with
  | None => None
  | Some s =>
      if Z.land (flags h) AVIO_FLAG_NONBLOCK =? 0 then
        let (r, w1) := ff_network_wait_fd os (fd s) 1 w in
        if r <? 0 then Some (mk_io_result r buf w1 [EvWait (fd s) 1 r])
        else
          let (r2, w2) := send os (fd s) buf size w1 in
          Some (mk_io_result (if r2 <? 0 then ff_neterrno os w2 else r2) buf w2
                  [EvWait (fd s) 1 r; EvSend (fd s) buf size r2])
      else
        let (r2, w2) := send os (fd s) buf size w in
        Some (mk_io_result (if r2 <? 0 then ff_neterrno os w2 else r2) buf w2
                [EvSend (fd s) buf size r2])
  end.

Definition tcp_close (h : URLContext) (w : W) : option (Z * W * list event) :=
  match priv_data h with
  | None => None
  | Some s =>
      let w1 := closesocket os (fd s) w in
      let w2 := av_free os w1 in
      Some (0, w2, [EvClose (fd s); EvFree])
  end.

Definition tcp_get_file_handle (h : URLContext) : option Z :=
  match priv_data h with
  | None => None
  | Some s => Some (fd s)
  end.

End Handler.

(** * Vocabulary of the properties *)

(** ** Histories *)

(** [moment h' hst]: [h'] was the whole history at some point of the run
    that ended with [hst] (histories are newest first, so [h'] is a
    suffix). *)
Definition moment (h' hst : list event) : Prop :=
  exists later, hst = later ++ h'.

(** The candidates a socket was asked for, in the order of the calls. *)
Fixpoint sockets (hst : list event) : list addrinfo :=
  match hst with
  | [] => []
  | EvSocket cur _ :: t => sockets t ++ [cur]
  | _ :: t => sockets t
  end.

(** The candidate of the latest socket call. *)
Fixpoint current_candidate (hst : list event) : option addrinfo :=
  match hst with
  | [] => None
  | EvSocket cur _ :: _ => Some cur
  | _ :: t => current_candidate t
  end.

(** Descriptors created (by socket or accept) and not closed, for a trace
    given oldest call first. *)
Fixpoint remove_fd (x : Z) (l : list Z) : list Z :=
  match l with
  | [] => []
  | y :: t => if x =? y then t else y :: remove_fd x t
  end.

Definition track_fd (open : list Z) (e : event) : list Z :=
  match e with
  | EvSocket _ s => if s >=? 0 then s :: open else open
  | EvAccept _ s => if s >=? 0 then s :: open else open
  | EvClose s => remove_fd s open
  | _ => open
  end.

Definition open_fds (trace : list event) : list Z :=
  fold_left track_fd trace [].

(** An errno reading that is neither an interruption nor in-progress. *)
Definition hard_errno (e : Z) : Prop :=
  e <> AVERROR EINTR /\ e <> AVERROR EINPROGRESS /\ e <> AVERROR EAGAIN.

(** The call whose result is the local [ret] when ff_socket_nonblock is
    reached, with the descriptor [s] then in hand: the connect on [s], or,
    in listen mode, the bind on the listening descriptor, followed by the
    listen, the accept that returned [s] and the close of the listening
    descriptor. *)
Inductive ret_source (s r : Z) (addr : sockaddr) (len : Z) : list event -> Prop :=
| rs_connect t :
    ret_source s r addr len (EvConnect s addr len r :: t)
| rs_bind s0 lr t :
    ret_source s r addr len
      (EvClose s0 :: EvAccept s0 s :: EvListen s0 1 lr
         :: EvBind s0 addr len r :: t).

(** The three ways an attempt on a candidate ends at [fail]: the socket
    call failed; the connect (or bind) returned a negative value and the
    errno read after ff_socket_nonblock is a hard one; or the poll for
    write-readiness returned a positive value and the pending error read
    after it on the same descriptor is not zero (when getsockopt stores
    nothing, [ret] still holds the poll result). *)
Inductive genuine_failure : list event -> Prop :=
| gf_socket cur s t :
    s < 0 -> genuine_failure (EvSocket cur s :: t)
| gf_errno e s r addr len t :
    hard_errno e ->
    r < 0 ->
    ret_source s r addr len t ->
    genuine_failure (EvNeterrno e :: EvNonblock s 1 :: t)
| gf_pending msg s v r t :
    0 < r ->
    match v with
    | Some x => x
    | None => r
    end <> 0 ->
    genuine_failure
      (EvLog msg :: EvGetsockopt s v :: EvPoll s POLLOUT 100 r :: t).

(** What precedes a socket call: the resolver's answer (first candidate),
    or the genuine failure of the previous candidate and, if it had a
    descriptor, the close of that descriptor. *)
Inductive socket_cause : list event -> Prop :=
| sc_first node service hints res :
    socket_cause [EvGetaddrinfo node service hints res]
| sc_failed t :
    genuine_failure t -> socket_cause t
| sc_failed_closed s t :
    genuine_failure t -> socket_cause (EvClose s :: t).


(** The calls of [fail1]: close the descriptor if there is one, release
    the address list (newest first). *)
Definition abort_tail (s : Z) : list event :=
  if s >=? 0 then [EvFreeaddrinfo; EvClose s] else [EvFreeaddrinfo].

(** ** Invariants of the connect machine *)

(** The candidates no socket was asked for yet. *)
Definition pending {W : Type} (c : config W) : list addrinfo :=
  match pc c with
  | L_restart => cur_ai c :: ai_next c
  | _ => ai_next c
  end.

Definition socket_moments (hst : list event) : Prop :=
  forall cur s t, moment (EvSocket cur s :: t) hst -> socket_cause t.

Definition order_at_label {W : Type} (c : config W) : Prop :=
  match pc c with
  | L_restart => socket_cause (hist c)
  | L_nonblock =>
      exists addr len, ret_source (l_fd c) (l_ret c) addr len (hist c)
  | L_fail => genuine_failure (hist c)
  | L_test_error =>
      0 < l_ret c /\ exists t, hist c = EvPoll (l_fd c) POLLOUT 100 (l_ret c) :: t
  | L_fail1 =>
      l_ret c = AVERROR_EXIT
      \/ (l_ret c = AVERROR EIO /\ ai_next c = [] /\ genuine_failure (hist c))
  | _ => True
  end.

Definition order_inv {W : Type} (all : list addrinfo) (c : config W) : Prop :=
  sockets (hist c) ++ pending c = all
  /\ socket_moments (hist c)
  /\ order_at_label c.

Definition order_post {W : Type} (all : list addrinfo) (o : outcome W) : Prop :=
  (exists untried, sockets (o_hist o) ++ untried = all)
  /\ socket_moments (o_hist o)
  /\ (o_ret o = AVERROR EIO ->
      sockets (o_hist o) = all
      /\ exists t, genuine_failure t
           /\ (o_hist o = EvFreeaddrinfo :: t
               \/ exists s, o_hist o = EvFreeaddrinfo :: EvClose s :: t)).




(** The descriptors open after a history (newest call first), and the
    descriptor the machine holds at a program point: none at [restart],
    else the local [fd] when it is not negative. *)
Definition open_after (hst : list event) : list Z :=
  fold_right (fun e acc => track_fd acc e) [] hst.

Definition held {W : Type} (c : config W) : list Z :=
  match pc c with
  | L_restart => []
  | _ => if l_fd c >=? 0 then [l_fd c] else []
  end.

Definition leak_inv {W : Type} (c : config W) : Prop :=
  open_after (hist c) = held c.

(** ** Faithful histories *)

(** The address list the resolver returned, as the history has it. *)
Fixpoint resolved_list (hst : list event) : list addrinfo :=
  match hst with
  | [] => []
  | EvGetaddrinfo _ _ _ (GaiOk f n) :: _ => f :: n
  | _ :: t => resolved_list t
  end.

(** [performs os ai e w w']: the event [e] is the record of a call made on
    the world [w]: the arguments are the recorded ones, the result is the
    recorded one, and [w'] is the world the call leaves.  [ai] is the list
    that freeaddrinfo releases. *)
Inductive performs {W : Type} (os : OS W) (ai : list addrinfo)
  : event -> W -> W -> Prop :=
| pf_getaddrinfo node service hints res w w' :
    getaddrinfo os node service hints w = (res, w') ->
    performs os ai (EvGetaddrinfo node service hints res) w w'
| pf_log msg w :
    performs os ai (EvLog msg) w (av_log os msg w)
| pf_socket cur r w w' :
    socket os (ai_family cur) (ai_socktype cur) (ai_protocol cur) w = (r, w') ->
    performs os ai (EvSocket cur r) w w'
| pf_bind s addr len r w w' :
    bind os s addr len w = (r, w') ->
    performs os ai (EvBind s addr len r) w w'
| pf_listen s backlog r w w' :
    listen os s backlog w = (r, w') ->
    performs os ai (EvListen s backlog r) w w'
| pf_accept s r w w' :
    accept os s w = (r, w') ->
    performs os ai (EvAccept s r) w w'
| pf_close s w :
    performs os ai (EvClose s) w (closesocket os s w)
| pf_connect s addr len r w w' :
    connect os s addr len w = (r, w') ->
    performs os ai (EvConnect s addr len r) w w'
| pf_nonblock s enable w :
    performs os ai (EvNonblock s enable) w (ff_socket_nonblock os s enable w)
| pf_neterrno w :
    performs os ai (EvNeterrno (ff_neterrno os w)) w w
| pf_interrupt i w w' :
    url_interrupt_cb os w = (i, w') ->
    performs os ai (EvInterrupt i) w w'
| pf_poll s ev tm r w w' :
    poll os s ev tm w = (r, w') ->
    performs os ai (EvPoll s ev tm r) w w'
| pf_getsockopt s v w w' :
    getsockopt_so_error os s w = (v, w') ->
    performs os ai (EvGetsockopt s v) w w'
| pf_malloc ok w w' :
    av_malloc os w = (ok, w') ->
    performs os ai (EvMalloc ok) w w'
| pf_freeaddrinfo w :
    performs os ai EvFreeaddrinfo w (freeaddrinfo os ai w)
| pf_wait s wr r w w' :
    ff_network_wait_fd os s wr w = (r, w') ->
    performs os ai (EvWait s wr r) w w'
| pf_recv s size r data w w' :
    recv os s size w = ((r, data), w') ->
    performs os ai (EvRecv s size r) w w'
| pf_send s buf size r w w' :
    send os s buf size w = (r, w') ->
    performs os ai (EvSend s buf size r) w w'
| pf_free w :
    performs os ai EvFree w (av_free os w).

(** [replay os ai w0 hst w]: the history [hst] (newest call first) is the
    record of calls made one after the other from the world [w0], and [w]
    is the world after the last of them. *)
Inductive replay {W : Type} (os : OS W) (ai : list addrinfo) (w0 : W)
  : list event -> W -> Prop :=
| replay_nil : replay os ai w0 [] w0
| replay_cons e hst w w' :
    replay os ai w0 hst w ->
    performs os ai e w w' ->
    replay os ai w0 (e :: hst) w'.

(** A history that records what was done to the world from [w0] to [w],
    the list released being the one the resolver returned. *)
Definition faithful {W : Type} (os : OS W) (w0 : W) (hst : list event) (w : W)
  : Prop :=
  replay os (resolved_list hst) w0 hst w.

(** The machine's history is faithful so far. *)
Definition replay_inv {W : Type} (os : OS W) (ai : list addrinfo) (w0 : W)
  (c : config W) : Prop :=
  replay os ai w0 (hist c) (world c) /\ resolved_list (hist c) = ai.

(** ** Reading and writing *)

(** [translated os r w v]: [v] is what [tcp_read] and [tcp_write] return
    for the result [r] of recv or send, [w] being the world the call left:
    the value of ff_neterrno when [r] is negative, [r] itself otherwise. *)
Definition translated {W : Type} (os : OS W) (r : Z) (w : W) (v : Z) : Prop :=
  (r < 0 -> v = ff_neterrno os w) /\ (0 <= r -> v = r).

(** ** What a history shows *)

(** An interrupt check that found the predicate asserted. *)
Definition is_abort (e : event) : bool :=
  match e with
  | EvInterrupt i => negb (i =? 0)
  | _ => false
  end.

Definition aborted (hst : list event) : bool := existsb is_abort hst.

(** The results of the av_malloc calls, newest first. *)
Fixpoint mallocs (hst : list event) : list bool :=
  match hst with
  | [] => []
  | EvMalloc b :: t => b :: mallocs t
  | _ :: t => mallocs t
  end.

(** The number of freeaddrinfo calls. *)
Fixpoint count_free (hst : list event) : nat :=
  match hst with
  | [] => O
  | EvFreeaddrinfo :: t => S (count_free t)
  | _ :: t => count_free t
  end.

(** A resolver call that returned an address list. *)
Definition is_resolved (e : event) : bool :=
  match e with
  | EvGetaddrinfo _ _ _ (GaiOk _ _) => true
  | _ => false
  end.

Definition resolved (hst : list event) : bool := existsb is_resolved hst.

(** The result of the latest call that creates a descriptor. *)
Fixpoint last_created (hst : list event) : option Z :=
  match hst with
  | [] => None
  | EvSocket _ s :: _ => Some s
  | EvAccept _ s :: _ => Some s
  | _ :: t => last_created t
  end.

(** The calls of listen mode. *)
Definition is_listen_call (e : event) : bool :=
  match e with
  | EvBind _ _ _ _ => true
  | EvListen _ _ _ => true
  | EvAccept _ _ => true
  | _ => false
  end.

Definition listen_calls (hst : list event) : bool := existsb is_listen_call hst.

(** What the history and the locals show of the cause of the return under
    way: no allocation and no release yet, the resolver succeeded, and an
    asserted interrupt check exactly at [fail1] with AVERROR_EXIT. *)
Definition cause_inv {W : Type} (c : config W) : Prop :=
  mallocs (hist c) = []
  /\ count_free (hist c) = O
  /\ resolved (hist c) = true
  /\ match pc c with
     | L_fail1 =>
         (l_ret c = AVERROR_EXIT /\ aborted (hist c) = true)
         \/ (l_ret c = AVERROR EIO /\ aborted (hist c) = false)
     | _ => aborted (hist c) = false
     end.

Definition cause_post {W : Type} (o : outcome W) : Prop :=
  count_free (o_hist o) = 1%nat
  /\ (exists t, o_hist o = EvFreeaddrinfo :: t)
  /\ resolved (o_hist o) = true
  /\ ((o_ret o = 0 /\ mallocs (o_hist o) = [true] /\ aborted (o_hist o) = false)
      \/ (o_ret o = AVERROR ENOMEM /\ mallocs (o_hist o) = [false]
          /\ aborted (o_hist o) = false)
      \/ (o_ret o = AVERROR_EXIT /\ mallocs (o_hist o) = []
          /\ aborted (o_hist o) = true)
      \/ (o_ret o = AVERROR EIO /\ mallocs (o_hist o) = []
          /\ aborted (o_hist o) = false)).

(** The descriptor the machine holds is the one created last, it is the
    only open one, and [fail1] is never entered with result 0. *)
Definition ctx_inv {W : Type} (c : config W) : Prop :=
  leak_inv c
  /\ (pc c <> L_restart -> last_created (hist c) = Some (l_fd c))
  /\ (pc c = L_fail1 -> l_ret c <> 0).

Definition ctx_post {W : Type} (h : URLContext) (o : outcome W) : Prop :=
  (o_ret o <> 0 /\ o_h o = h)
  \/ (exists s,
        o_ret o = 0
        /\ o_h o = mk_URLContext (flags h) 1 (Some (mk_TCPContext s))
        /\ last_created (o_hist o) = Some s
        /\ open_after (o_hist o) = (if s >=? 0 then [s] else [])).

(** Every close is the close of a descriptor that is open. *)
Definition close_moments (hst : list event) : Prop :=
  forall s t, moment (EvClose s :: t) hst -> In s (open_after t).

(** Every poll asks for write-readiness with a timeout of 100 ms right
    after an interrupt check that found nothing; every read of the pending
    error follows a poll on the same descriptor that reported
    readiness. *)
Definition poll_moments (hst : list event) : Prop :=
  (forall s ev tm r t,
      moment (EvPoll s ev tm r :: t) hst ->
      ev = POLLOUT /\ tm = 100 /\ exists t', t = EvInterrupt 0 :: t')
  /\ (forall s v t,
        moment (EvGetsockopt s v :: t) hst ->
        exists r t', 0 < r /\ t = EvPoll s POLLOUT 100 r :: t').

Definition poll_inv {W : Type} (c : config W) : Prop :=
  poll_moments (hist c)
  /\ (pc c = L_test_error ->
      exists r t', 0 < r /\ hist c = EvPoll (l_fd c) POLLOUT 100 r :: t').

(** Every accept is made on a descriptor that socket returned for a
    candidate, right after the bind to that candidate's address and the
    listen with a backlog of one, and is followed at once by the close of
    that listening descriptor. *)
Definition accept_moments (hst : list event) : Prop :=
  forall s s1 t,
    moment (EvAccept s s1 :: t) hst ->
    0 <= s
    /\ (exists cur r lr t',
          t = EvListen s 1 lr
                :: EvBind s (ai_addr cur) (ai_addrlen cur) r
                :: EvSocket cur s :: t')
    /\ moment (EvClose s :: EvAccept s s1 :: t) hst.

(** No interrupt check found the predicate asserted, except that at
    [fail1] the latest call may be the one check that did. *)
Definition abort_inv {W : Type} (c : config W) : Prop :=
  match pc c with
  | L_fail1 =>
      (exists i t, i <> 0 /\ hist c = EvInterrupt i :: t /\ aborted t = false)
      \/ aborted (hist c) = false
  | _ => aborted (hist c) = false
  end.

(** Nothing but the close of the descriptor and the release of the address
    list follows the one interrupt check that found the predicate
    asserted. *)
Definition abort_post {W : Type} (o : outcome W) : Prop :=
  aborted (o_hist o) = false
  \/ exists i t,
       i <> 0 /\ aborted t = false
       /\ (o_hist o = EvFreeaddrinfo :: EvInterrupt i :: t
           \/ exists s, o_hist o = EvFreeaddrinfo :: EvClose s :: EvInterrupt i :: t).

(** ** Query strings *)

(** The options of a query string, as a reader of URLs sees them: the
    pieces between ampersands, and of each piece the name in front of its
    first equals sign. *)
Fixpoint split_on (c : ascii) (s : string) : list string :=
  match s with
  | EmptyString => [EmptyString]
  | String a s' =>
      if Ascii.eqb a c then EmptyString :: split_on c s'
      else match split_on c s' with
           | x :: xs => String a x :: xs
           | [] => [String a EmptyString]
           end
  end.

Fixpoint option_name (item : string) : string :=
  match item with
  | EmptyString => EmptyString
  | String a s' => if Ascii.eqb a "=" then EmptyString else String a (option_name s')
  end.

Definition query_options (q : string) : list string :=
  map option_name (split_on "&" q).

(** * A scripted environment

    A concrete world for running the handler: the answers of the fallible
    calls are read off a script, in the order the calls are made.  An
    answer is the call's result and, for a negative result, the errno it
    leaves; every answer advances a clock by one tick.  The interrupt
    predicate is not scripted: it is asserted from tick [abort_at] on, and
    stays asserted.  Calls that cannot fail here (closesocket,
    freeaddrinfo, ff_socket_nonblock, av_log, av_free) read nothing. *)
Module Scripted.

Record sworld := mk_sworld {
  script : list (Z * Z);
  errno : Z;
  clock : nat;
  abort_at : option nat;
  addrs : list addrinfo       (* what the resolver knows *)
}.

Definition answer (w : sworld) : Z * sworld :=
  match script w with
  | [] => (0, mk_sworld [] (errno w) (S (clock w)) (abort_at w) (addrs w))
  | (r, e) :: rest =>
      (r, mk_sworld rest (if r <? 0 then e else errno w) (S (clock w))
            (abort_at w) (addrs w))
  end.

Definition interrupted (w : sworld) : Z :=
  match abort_at w with
  | Some t => if (t <=? clock w)%nat then 1 else 0
  | None => 0
  end.

Definition is_digit (c : ascii) : bool :=
  let n := N_of_ascii c in ((48 <=? n) && (n <=? 57))%N.

Fixpoint atoi_from (acc : Z) (s : string) : Z :=
  match s with
  | String c s' =>
      if is_digit c then atoi_from (10 * acc + (Z.of_N (N_of_ascii c) - 48)) s'
      else acc
  | EmptyString => acc
  end.

Definition skip_slash (s : string) : string :=
  match s with
  | String "/" s' => s'
  | _ => s
  end.

Definition is_colon (c : ascii) : bool := Ascii.eqb c ":".
Definition ends_host (c : ascii) : bool :=
  Ascii.eqb c ":" || Ascii.eqb c "/" || Ascii.eqb c "?".
Definition starts_path (c : ascii) : bool :=
  Ascii.eqb c "/" || Ascii.eqb c "?".

(** A plain splitter for URLs of the shape proto://host[:port][/path][?query];
    it stands in for the library's [av_url_split]. *)
Definition url_split (url : string) : url_parts :=
  let (pr, r0) := span_string is_colon url in
  match r0 with
  | String ":" r1 =>
      let r2 := skip_slash (skip_slash r1) in
      let (hst, r3) := span_string ends_host r2 in
      let (_, pth) := span_string starts_path r3 in
      match r3 with
      | String ":" r4 => mk_url_parts pr hst (atoi_from 0 r4) pth
      | _ => mk_url_parts pr hst (-1) pth
      end
  | _ => mk_url_parts EmptyString EmptyString (-1) url
  end.

Definition os : OS sworld := {|
  av_url_split := fun _ _ _ _ url => url_split url;
  gai_strerror := fun _ => "Name or service not known"%string;
  strerror := fun _ => "Connection refused"%string;
  getaddrinfo := fun _ _ _ w =>
    let (r, w') := answer w in
    match addrs w with
    | a :: rest => if r =? 0 then (GaiOk a rest, w') else (GaiError r, w')
    | [] => (GaiError (if r =? 0 then -2 else r), w')
    end;
  freeaddrinfo := fun _ w => w;
  av_log := fun _ w => w;
  socket := fun _ _ _ w => answer w;
  bind := fun _ _ _ w => answer w;
  listen := fun _ _ w => answer w;
  accept := fun _ w => answer w;
  closesocket := fun _ w => w;
  connect := fun _ _ _ w => answer w;
  ff_socket_nonblock := fun _ _ w => w;
  ff_neterrno := fun w => AVERROR (errno w);
  url_interrupt_cb := fun w => (interrupted w, w);
  poll := fun _ _ _ w => answer w;
  getsockopt_so_error := fun _ w => let (r, w') := answer w in (Some r, w');
  av_malloc := fun w => let (r, w') := answer w in (negb (r =? 0), w');
  av_free := fun w => w;
  ff_network_wait_fd := fun _ _ w => answer w;
  recv := fun _ _ w => let (r, w') := answer w in ((r, []), w');
  send := fun _ _ _ w => answer w
|}.

(** Two candidate addresses: 127.0.0.1 and ::1, both port 5000. *)
Definition addr4 : addrinfo :=
  mk_addrinfo 0 2 1 6 16
    [Byte.x02; Byte.x00; Byte.x13; Byte.x88; Byte.x7f; Byte.x00; Byte.x00; Byte.x01;
     Byte.x00; Byte.x00; Byte.x00; Byte.x00; Byte.x00; Byte.x00; Byte.x00; Byte.x00].
Definition addr6 : addrinfo :=
  mk_addrinfo 0 10 1 6 28
    [Byte.x0a; Byte.x00; Byte.x13; Byte.x88; Byte.x00; Byte.x00; Byte.x00; Byte.x00;
     Byte.x00; Byte.x00; Byte.x00; Byte.x00; Byte.x00; Byte.x00; Byte.x00; Byte.x00;
     Byte.x00; Byte.x00; Byte.x00; Byte.x00; Byte.x00; Byte.x00; Byte.x00; Byte.x01;
     Byte.x00; Byte.x00; Byte.x00; Byte.x00].

Definition h0 : URLContext := mk_URLContext 0 0 None.

(** The history of an outcome, oldest call first. *)
Definition trace_of (o : option (outcome sworld)) : list event :=
  match o with
  | Some x => rev (o_hist x)
  | None => []
  end.

Definition ret_of (o : option (outcome sworld)) : option Z :=
  match o with
  | Some x => Some (o_ret x)
  | None => None
  end.

(** A host with an IPv4 and an IPv6 address, in that order, and the same
    host with the resolver answering in the other order. *)
Definition world_of (sc : list (Z * Z)) (abort : option nat) : sworld :=
  mk_sworld sc 0 0 abort [addr4; addr6].
Definition world6_of (sc : list (Z * Z)) (abort : option nat) : sworld :=
  mk_sworld sc 0 0 abort [addr6; addr4].

Definition ECONNREFUSED : Z := 111.
Definition EAFNOSUPPORT : Z := 97.
Definition EADDRINUSE : Z := 98.

(** The resolver succeeds, socket() gives descriptor 3, connect() succeeds
    at once, av_malloc() returns NULL. *)
Definition w_enomem : sworld := world_of [(0, 0); (3, 0); (0, 0); (0, 0)] None.

(** The resolver succeeds, socket() gives 3, connect() is in progress, the
    first poll slice reports the socket writable, no pending error,
    av_malloc() succeeds.  The interrupt predicate is asserted from tick
    [abort] on. *)
Definition w_in_progress (abort : option nat) : sworld :=
  world_of [(0, 0); (3, 0); (-1, EINPROGRESS); (1, 0); (0, 0); (1, 0)] abort.

(** The IPv4 address refuses the connection, no socket can be created for
    the IPv6 address. *)
Definition w_refused : sworld :=
  world_of [(0, 0); (3, 0); (-1, ECONNREFUSED); (-1, EAFNOSUPPORT)] None.

(** The resolver fails. *)
Definition w_unresolved : sworld := world_of [(-2, 0)] None.

(** Listen mode: the bind of the first candidate fails (address in use),
    the accept on its socket still returns a connection (descriptor 7);
    the second candidate binds and accepts (descriptor 8). *)
Definition w_listen_bind_fails : sworld :=
  world_of [(0, 0); (3, 0); (-1, EADDRINUSE); (0, 0); (7, 0);
            (4, 0); (0, 0); (0, 0); (8, 0); (1, 0)] None.

(** Listen mode: socket 3 binds and listens, accept() fails, av_malloc()
    succeeds. *)
Definition w_listen_accept_fails : sworld :=
  world_of [(0, 0); (3, 0); (0, 0); (0, 0); (-1, 24); (1, 0)] None.

(** Listen mode: socket 3 binds and listens, accept() returns descriptor
    4, av_malloc() succeeds. *)
Definition w_listen_ok : sworld :=
  world_of [(0, 0); (3, 0); (0, 0); (0, 0); (4, 0); (1, 0)] None.

(** Listen mode on a host whose resolver puts the IPv6 address first and
    that cannot create IPv6 sockets; the IPv4 socket binds, listens and
    accepts descriptor 4. *)
Definition w_listen_no_ipv6 : sworld :=
  world6_of [(0, 0); (-1, EAFNOSUPPORT); (3, 0); (0, 0); (0, 0); (4, 0); (1, 0)]
    None.

(** Listen mode: a single candidate whose bind fails. *)
Definition w_listen_last_bind_fails : sworld :=
  mk_sworld [(3, 0); (-1, EADDRINUSE); (0, 0); (7, 0)] 0 1 None [addr4].

(** The state in the wait loop of the in-progress connect: descriptor 3,
    the script at the first poll. *)
Definition c_waiting (w : sworld) : config sworld :=
  mk_config L_wait 3 (-1) addr4 [addr6] w [].



(** An environment in which the peer never answers and nobody interrupts:
    as [os], but every poll slice times out and the interrupt predicate is
    never asserted. *)
Definition os_silent : OS sworld := {|
  av_url_split := av_url_split os;
  gai_strerror := gai_strerror os;
  strerror := strerror os;
  getaddrinfo := getaddrinfo os;
  freeaddrinfo := freeaddrinfo os;
  av_log := av_log os;
  socket := socket os;
  bind := bind os;
  listen := listen os;
  accept := accept os;
  closesocket := closesocket os;
  connect := connect os;
  ff_socket_nonblock := ff_socket_nonblock os;
  ff_neterrno := ff_neterrno os;
  url_interrupt_cb := fun w => (0, w);
  poll := fun _ _ _ w => (0, snd (answer w));
  getsockopt_so_error := getsockopt_so_error os;
  av_malloc := av_malloc os;
  av_free := av_free os;
  ff_network_wait_fd := ff_network_wait_fd os;
  recv := recv os;
  send := send os
|}.

(** A blocking handle on descriptor 3, and a world in which the readiness
    wait fails with AVERROR(EAGAIN). *)
Definition h_blocking : URLContext :=
  mk_URLContext 0 1 (Some (mk_TCPContext 3)).
Definition w_wait_fails : sworld := world_of [(AVERROR EAGAIN, EAGAIN)] None.

End Scripted.

(** * Properties *)

(** ** Histories *)

Lemma moment_refl hst : moment hst hst.
Proof. exists []. reflexivity. Qed.

Lemma moment_cons e h' hst : moment h' hst -> moment h' (e :: hst).
Proof. intros [l ->]. exists (e :: l). reflexivity. Qed.

Lemma moment_app l h' hst : moment h' hst -> moment h' (l ++ hst).
Proof. intros [l' ->]. exists (l ++ l'). now rewrite app_assoc. Qed.

Lemma moment_cons_inv e h' hst :
  moment h' (e :: hst) -> h' = e :: hst \/ moment h' hst.
Proof.
  intros [[|x l] E]; simpl in E.
  - now left.
  - right. injection E as _ ->. now exists l.
Qed.

Lemma moment_nil_inv h' : moment h' [] -> h' = [].
Proof.
  intros [l E]. symmetry in E. now apply app_eq_nil in E.
Qed.

Lemma AVERROR_EXIT_value : AVERROR_EXIT = -1414092869.
Proof. reflexivity. Qed.

(** A call of the interrupt predicate that found it asserted is in the
    history exactly when [aborted] says so. *)
Lemma aborted_moment hst :
  aborted hst = true <->
  exists i t, i <> 0 /\ moment (EvInterrupt i :: t) hst.
Proof.
  unfold aborted. split.
  - induction hst as [|e hst IH]; [discriminate|].
    cbn [existsb]. intros Hor. apply orb_true_iff in Hor as [He|Ht].
    + destruct e; try discriminate He. cbn [is_abort] in He.
      apply negb_true_iff, Z.eqb_neq in He.
      exists res, hst. split; [exact He|apply moment_refl].
    + destruct (IH Ht) as (i & t & Hi & Hm).
      exists i, t. split; [exact Hi|apply moment_cons; exact Hm].
  - intros (i & t & Hi & later & ->).
    rewrite existsb_app. apply orb_true_iff. right.
    cbn [existsb is_abort]. apply Z.eqb_neq in Hi. now rewrite Hi.
Qed.

(** In a replayed history every recorded call was made on the world the
    calls before it left. *)
Lemma replay_moment {W : Type} (os : OS W) ai (w0 w : W) hst e t :
  replay os ai w0 hst w ->
  moment (e :: t) hst ->
  exists wa wb, replay os ai w0 t wa /\ performs os ai e wa wb.
Proof.
  intros Hr. induction Hr as [|e' hst w w' Hr IH Hp]; intros Hm.
  - apply moment_nil_inv in Hm. discriminate.
  - apply moment_cons_inv in Hm as [E|Hm].
    + injection E as <- <-. now exists w, w'.
    + apply IH. exact Hm.
Qed.

(** ** Runs of the machine *)

Section MachineFacts.

Context {W : Type}.
Variable os : OS W.
Variable listen_socket : Z.
Variable host : string.
Variable prt : Z.
Variable ai : list addrinfo.
Variable h : URLContext.

Local Abbreviation mstep := (step os listen_socket host prt ai h).
Local Abbreviation msteps := (steps os listen_socket host prt ai h).
Local Abbreviation mrun := (run os listen_socket host prt ai h).

(** An invariant of the blocks holds when the run returns. *)
Lemma run_invariant (I : config W -> Prop) (Q : outcome W -> Prop) :
  (forall c c', I c -> mstep c = inl c' -> I c') ->
  (forall c o, I c -> mstep c = inr o -> Q o) ->
  forall fuel c o, I c -> mrun fuel c = Some o -> Q o.
Proof.
  intros Hstep Hret fuel.
  induction fuel as [|fuel IH]; intros c o Hc Hrun; simpl in Hrun.
  - discriminate.
  - destruct (mstep c) as [c'|o'] eqn:E.
    + eapply IH; [eapply Hstep; eassumption | exact Hrun].
    + injection Hrun as <-. eapply Hret; eassumption.
Qed.

(** More fuel does not change a result. *)
Lemma run_more fuel : forall c o k,
  mrun fuel c = Some o -> mrun (fuel + k) c = Some o.
Proof.
  induction fuel as [|fuel IH]; intros c o k Hrun; simpl in *.
  - discriminate.
  - destruct (mstep c) as [c'|o']; [now apply IH | exact Hrun].
Qed.

(** A run is its first blocks followed by the run of the rest. *)
Lemma run_steps n : forall c c' fuel,
  msteps n c = inl c' -> mrun (n + fuel) c = mrun fuel c'.
Proof.
  induction n as [|n IH]; intros c c' fuel E; simpl in *.
  - now injection E as ->.
  - destruct (mstep c) as [c1|o]; [now apply IH | discriminate].
Qed.

End MachineFacts.

(** ** Argument check and name resolution *)

Section OpenFacts.

Context {W : Type}.
Variable os : OS W.

(** C6: when the scheme [av_url_split] reports is not tcp, or the port it
    reports is not in 1..65535, [tcp_open] returns AVERROR(EINVAL) with the
    world untouched and no call made: no name resolution, no socket
    operation. *)
Theorem tcp_open_invalid_argument :
  forall (fuel : nat) (h : URLContext) (uri : string) (flags : Z) (w : W),
    (proto (av_url_split os 1024 0 1024 1024 uri) <> "tcp"%string
     \/ port (av_url_split os 1024 0 1024 1024 uri) <= 0
     \/ 65536 <= port (av_url_split os 1024 0 1024 1024 uri)) ->
    tcp_open os fuel h uri flags w = Some (mk_outcome (AVERROR EINVAL) h w []).
Proof.
  intros fuel h uri flags w Hbad.
  unfold tcp_open, strcmp.
  set (parts := av_url_split os 1024 0 1024 1024 uri) in *.
  destruct (String.eqb_spec (proto parts) "tcp") as [Heq|Hne]; simpl.
  - destruct Hbad as [Hp|[Hlo|Hhi]].
    + contradiction.
    + apply Z.leb_le in Hlo. now rewrite Hlo.
    + apply Z.geb_le in Hhi. rewrite Hhi.
      now rewrite orb_true_r.
  - reflexivity.
Qed.

(** Past the argument check the first call is the resolver's. *)
Lemma tcp_open_valid_argument fuel h uri flags w :
  proto (av_url_split os 1024 0 1024 1024 uri) = "tcp"%string ->
  0 < port (av_url_split os 1024 0 1024 1024 uri) < 65536 ->
  tcp_open os fuel h uri flags w =
  let parts := av_url_split os 1024 0 1024 1024 uri in
  let portstr := snprintf_d 10 (port parts) in
  let (res, w1) := getaddrinfo os (hostname parts) portstr tcp_hints w in
  match res with
  | GaiError code =>
      let msg := resolve_failed_msg os (hostname parts) code in
      Some (mk_outcome (AVERROR EIO) h (av_log os msg w1)
              [EvLog msg; EvGetaddrinfo (hostname parts) portstr tcp_hints res])
  | GaiOk first next =>
      run os (tcp_listen_socket uri) (hostname parts) (port parts)
        (first :: next) h fuel
        (mk_config L_restart (-1) 0 first next w1
           [EvGetaddrinfo (hostname parts) portstr tcp_hints res])
  end.
Proof.
  intros Hp [Hlo Hhi]. unfold tcp_open, strcmp. rewrite Hp. simpl.
  destruct (Z.leb_spec (port (av_url_split os 1024 0 1024 1024 uri)) 0); [lia|].
  destruct (Z.geb_spec (port (av_url_split os 1024 0 1024 1024 uri)) 65536); [lia|].
  reflexivity.
Qed.

(** C9 (amended): when the resolver fails, [tcp_open] returns at once with
    AVERROR(EIO), the very code of an exhausted candidate list; the only
    calls made are the resolver's and the log line: no socket is created
    and no connection attempted. *)
Theorem tcp_open_resolution_failure :
  forall (fuel : nat) (h : URLContext) (uri : string) (flags : Z) (w w1 : W)
         (code : Z),
    proto (av_url_split os 1024 0 1024 1024 uri) = "tcp"%string ->
    0 < port (av_url_split os 1024 0 1024 1024 uri) < 65536 ->
    getaddrinfo os (hostname (av_url_split os 1024 0 1024 1024 uri))
      (snprintf_d 10 (port (av_url_split os 1024 0 1024 1024 uri)))
      tcp_hints w = (GaiError code, w1) ->
    exists o,
      tcp_open os fuel h uri flags w = Some o
      /\ o_ret o = AVERROR EIO
      /\ o_h o = h
      /\ sockets (o_hist o) = []
      /\ (forall s addr len r, ~ In (EvConnect s addr len r) (o_hist o))
      /\ exists msg node service hints,
           o_hist o = [EvLog msg; EvGetaddrinfo node service hints (GaiError code)].
Proof.
  intros fuel h uri flags w w1 code Hp Hport Hgai.
  rewrite (tcp_open_valid_argument fuel h uri flags w Hp Hport).
  cbv zeta. rewrite Hgai.
  eexists. split; [reflexivity|]. simpl.
  repeat split; try reflexivity.
  - intros s addr len r [H|[H|[]]]; discriminate.
  - do 4 eexists. reflexivity.
Qed.

(** ** Reading and writing *)

Lemma translated_value (r : Z) (w : W) :
  translated os r w (if r <? 0 then ff_neterrno os w else r).
Proof.
  unfold translated. destruct (Z.ltb_spec r 0); split; intros; (reflexivity || lia).
Qed.

(** C8: on an open context, (1) when the non-blocking flag is set,
    [tcp_read] calls recv and [tcp_write] calls send on the world as it is,
    with no readiness wait; (2) when the flag is not set, [tcp_read] first
    calls the readiness wait for reading and [tcp_write] the one for
    writing, and when the wait does not fail recv, resp. send, is called on
    the world the wait left.  In each case the call returns the value of
    ff_neterrno when recv/send returned a negative value and the returned
    count itself when it is zero or positive; the buffer is what recv
    delivered, the world is the one recv/send left, and nothing else was
    called. *)
Theorem tcp_read_write_result :
  forall (h : URLContext) (s : TCPContext) (buf : list Byte.byte) (size : Z) (w : W),
    priv_data h = Some s ->
    (Z.land (flags h) AVIO_FLAG_NONBLOCK <> 0 ->
     (forall r data w2,
         recv os (fd s) size w = (r, data, w2) ->
         exists v,
           translated os r w2 v
           /\ tcp_read os h buf size w
              = Some (mk_io_result v data w2 [EvRecv (fd s) size r]))
     /\ (forall r w2,
           send os (fd s) buf size w = (r, w2) ->
           exists v,
             translated os r w2 v
             /\ tcp_write os h buf size w
                = Some (mk_io_result v buf w2 [EvSend (fd s) buf size r])))
    /\ (Z.land (flags h) AVIO_FLAG_NONBLOCK = 0 ->
        (forall x w1 r data w2,
            ff_network_wait_fd os (fd s) 0 w = (x, w1) ->
            0 <= x ->
            recv os (fd s) size w1 = (r, data, w2) ->
            exists v,
              translated os r w2 v
              /\ tcp_read os h buf size w
                 = Some (mk_io_result v data w2
                           [EvWait (fd s) 0 x; EvRecv (fd s) size r]))
        /\ (forall x w1 r w2,
              ff_network_wait_fd os (fd s) 1 w = (x, w1) ->
              0 <= x ->
              send os (fd s) buf size w1 = (r, w2) ->
              exists v,
                translated os r w2 v
                /\ tcp_write os h buf size w
                   = Some (mk_io_result v buf w2
                             [EvWait (fd s) 1 x; EvSend (fd s) buf size r]))).
Proof.
  intros h s buf size w Hs.
  unfold tcp_read, tcp_write. rewrite Hs.
  destruct (Z.eqb_spec (Z.land (flags h) AVIO_FLAG_NONBLOCK) 0) as [Hf|Hf].
  - split; [intros Hn; contradiction|]. intros _. split.
    + intros x w1 r data w2 Hw Hx Hr. rewrite Hw.
      destruct (Z.ltb_spec x 0); [lia|]. rewrite Hr.
      eexists. split; [apply translated_value|reflexivity].
    + intros x w1 r w2 Hw Hx Hr. rewrite Hw.
      destruct (Z.ltb_spec x 0); [lia|]. rewrite Hr.
      eexists. split; [apply translated_value|reflexivity].
  - split; [|intros Hz; contradiction]. intros _. split.
    + intros r data w2 Hr. rewrite Hr.
      eexists. split; [apply translated_value|reflexivity].
    + intros r w2 Hr. rewrite Hr.
      eexists. split; [apply translated_value|reflexivity].
Qed.

End OpenFacts.

(** ** The connect machine *)

Ltac break_step H :=
  unfold step, block_restart, block_redo, block_nonblock, block_wait,
    block_test_error, block_alloc, block_fail, block_fail1, goto in H;
  repeat match type of H with
    | context [match pc ?c with _ => _ end] => destruct (pc c) eqn:?
    | context [match ai_next ?c with _ => _ end] => destruct (ai_next c) eqn:?
    | context [let (_, _) := ?x in _] => destruct x eqn:?
    | context [if ?b then _ else _] => destruct b eqn:?
    end;
  first [injection H as <- | discriminate H].

Ltac bools :=
  repeat match goal with
    | H : (_ <? _) = true |- _ => apply Z.ltb_lt in H
    | H : (_ <? _) = false |- _ => apply Z.ltb_ge in H
    | H : (_ =? _) = true |- _ => apply Z.eqb_eq in H
    | H : (_ =? _) = false |- _ => apply Z.eqb_neq in H
    | H : (_ >? _) = true |- _ => apply Z.gtb_lt in H
    | H : (_ >? _) = false |- _ => rewrite Z.gtb_ltb in H
    | H : (_ >=? _) = true |- _ => apply Z.geb_le in H
    | H : (_ >=? _) = false |- _ => rewrite Z.geb_leb in H; apply Z.leb_gt in H
    | H : negb _ = true |- _ => apply negb_true_iff in H
    | H : negb _ = false |- _ => apply negb_false_iff in H
    | H : (_ && _) = true |- _ => apply andb_true_iff in H; destruct H
    end.

Ltac proj_simpl :=
  cbn [pc l_fd l_ret cur_ai ai_next world hist o_ret o_h o_world o_hist
       sockets current_candidate app] in *.

Section ConnectFacts.

Context {W : Type}.
Variable os : OS W.
Variable listen_socket : Z.
Variable host : string.
Variable prt : Z.
Variable ai : list addrinfo.
Variable h : URLContext.

Local Abbreviation mstep := (step os listen_socket host prt ai h).
Local Abbreviation msteps := (steps os listen_socket host prt ai h).
Local Abbreviation mrun := (run os listen_socket host prt ai h).

(** *** Candidate order *)

Lemma socket_moments_cons e hst :
  socket_moments hst ->
  (forall cur s, e = EvSocket cur s -> socket_cause hst) ->
  socket_moments (e :: hst).
Proof.
  intros Hm He cur s t Hmom.
  apply moment_cons_inv in Hmom as [E|Hmom].
  - injection E as <- <-. eapply He. reflexivity.
  - eapply Hm. exact Hmom.
Qed.

Ltac moments :=
  repeat (apply socket_moments_cons; [|intros; discriminate]);
  try assumption.

Lemma order_inv_step all c c' :
  order_inv all c -> mstep c = inl c' -> order_inv all c'.
Proof.
  intros (Hs & Hm & Hl) Hstep.
  unfold order_inv, order_at_label, pending in *.
  break_step Hstep; bools; proj_simpl.
  all: (split; [|split]); [try assumption | moments | try exact I].
  all: try (rewrite <- app_assoc; exact Hs).
  all: try (apply socket_moments_cons; [assumption | intros; exact Hl]).
  all: try (left; reflexivity).
  all: try (right; repeat split; assumption).
  all: try (split; [lia|eexists; reflexivity]).
  all: try (do 2 eexists; constructor).
  all: try (constructor; assumption).
  - destruct Hl as (addr & len & Hsrc).
    refine (gf_errno _ _ _ _ _ _ _ _ Hsrc); [repeat split; assumption|assumption].
  - destruct Hl as (Hpos & t & ->). apply gf_pending; assumption.
Qed.

Lemma order_inv_return all c o :
  order_inv all c -> mstep c = inr o -> order_post all o.
Proof.
  intros (Hs & Hm & Hl) Hstep.
  unfold order_inv, order_post, order_at_label, pending in *.
  break_step Hstep; bools; proj_simpl.
  all: (split; [|split]); [eexists; exact Hs | moments | ].
  1, 2: intros E; discriminate E.
  all: intros E; destruct Hl as [Hx|(_ & Hn & Hg)];
    [rewrite Hx in E; discriminate E|].
  all: rewrite Hn, app_nil_r in Hs; split; [exact Hs|].
  all: exists (hist c); split; [exact Hg|].
  - right. now exists (l_fd c).
  - now left.
Qed.

(** A run that starts at [restart] on the first candidate, right after the
    resolver answered. *)
Lemma order_inv_init node service hints first next (w : W) fd0 ret0 :
  ai = first :: next ->
  order_inv ai
    (mk_config L_restart fd0 ret0 first next w
       [EvGetaddrinfo node service hints (GaiOk first next)]).
Proof.
  intros ->. split; [reflexivity|split].
  - intros cur s t Hmom. cbn [hist] in Hmom.
    apply moment_cons_inv in Hmom as [E|Hmom]; [discriminate|].
    apply moment_nil_inv in Hmom. discriminate.
  - constructor.
Qed.

Lemma run_order fuel node service hints first next w fd0 ret0 o :
  ai = first :: next ->
  mrun fuel
    (mk_config L_restart fd0 ret0 first next w
       [EvGetaddrinfo node service hints (GaiOk first next)]) = Some o ->
  order_post ai o.
Proof.
  intros Hai Hrun.
  eapply (run_invariant os listen_socket host prt ai h (order_inv ai) (order_post ai)).
  - apply order_inv_step.
  - apply order_inv_return.
  - apply order_inv_init. exact Hai.
  - exact Hrun.
Qed.

(** *** Connect calls *)







(** *** Faithful histories *)

Ltac replays :=
  repeat (eapply replay_cons; [|econstructor; eassumption]);
  try assumption.

Lemma replay_inv_step w0 c c' :
  replay_inv os ai w0 c -> mstep c = inl c' -> replay_inv os ai w0 c'.
Proof.
  intros (Hr & Ha) Hstep. unfold replay_inv in *.
  break_step Hstep; proj_simpl; cbn [resolved_list].
  all: (split; [|exact Ha]).
  all: replays.
Qed.

Lemma replay_inv_return w0 c o :
  replay_inv os ai w0 c -> mstep c = inr o ->
  faithful os w0 (o_hist o) (o_world o).
Proof.
  intros (Hr & Ha) Hstep. unfold faithful.
  break_step Hstep; proj_simpl; cbn [resolved_list]; rewrite Ha.
  all: replays.
Qed.

(** The history of a run that starts right after the resolver answered
    records what was done to the world since the resolver was called. *)
Lemma run_faithful fuel node service hints first next (w0 w : W) fd0 ret0 o :
  ai = first :: next ->
  getaddrinfo os node service hints w0 = (GaiOk first next, w) ->
  mrun fuel
    (mk_config L_restart fd0 ret0 first next w
       [EvGetaddrinfo node service hints (GaiOk first next)]) = Some o ->
  faithful os w0 (o_hist o) (o_world o).
Proof.
  intros Hai Hg Hrun.
  refine (run_invariant os listen_socket host prt ai h (replay_inv os ai w0)
            (fun o => faithful os w0 (o_hist o) (o_world o))
            _ _ fuel _ o _ Hrun).
  - apply replay_inv_step.
  - apply replay_inv_return.
  - split; [|now rewrite Hai]. cbn [hist world].
    eapply replay_cons; [apply replay_nil|]. constructor. exact Hg.
Qed.

(** *** Descriptors *)

Lemma open_after_rev hst : open_fds (rev hst) = open_after hst.
Proof.
  unfold open_fds, open_after.
  induction hst as [|e hst IH]; simpl; [reflexivity|].
  rewrite fold_left_app. simpl. now rewrite IH.
Qed.

Lemma leak_inv_step c c' :
  leak_inv c -> mstep c = inl c' -> leak_inv c'.
Proof.
  unfold leak_inv, held. intros Hinv Hstep.
  break_step Hstep; bools; proj_simpl;
    cbn [open_after fold_right track_fd remove_fd];
    fold (open_after (hist c)); rewrite ?Hinv; try reflexivity.
  - destruct (Z.geb_spec z 0); [|lia].
    destruct (z2 >=? 0); cbn [remove_fd]; rewrite ?Z.eqb_refl;
      [|reflexivity].
    destruct (Z.eqb_spec z z2) as [->|_]; reflexivity.
  - cbn [remove_fd]. now rewrite Z.eqb_refl.
Qed.

(** At a return either nothing is open, or the return is the one of the
    allocation block and the descriptor the machine holds is open: handed
    to the caller on success, left behind on AVERROR(ENOMEM). *)
Lemma leak_inv_return c o :
  leak_inv c -> mstep c = inr o ->
  open_after (o_hist o) = []
  \/ (open_after (o_hist o) = (if l_fd c >=? 0 then [l_fd c] else [])
      /\ ((o_ret o = 0 /\ priv_data (o_h o) = Some (mk_TCPContext (l_fd c)))
          \/ o_ret o = AVERROR ENOMEM)).
Proof.
  unfold leak_inv, held. intros Hinv Hstep.
  break_step Hstep; bools; proj_simpl;
    cbn [open_after fold_right track_fd remove_fd];
    fold (open_after (hist c)); rewrite ?Hinv.
  - right. split; [reflexivity|]. now right.
  - right. split; [reflexivity|]. left. split; reflexivity.
  - left. destruct (Z.geb_spec (l_fd c) 0); [|lia].
    cbn [remove_fd]. now rewrite Z.eqb_refl.
  - left. destruct (Z.geb_spec (l_fd c) 0); [lia|reflexivity].
Qed.

(** Every return of the machine other than success and AVERROR(ENOMEM)
    leaves no descriptor open. *)
Lemma run_closes_descriptor fuel first next (w : W) ret0 hst o :
  open_after hst = [] ->
  mrun fuel (mk_config L_restart (-1) ret0 first next w hst) = Some o ->
  o_ret o <> 0 -> o_ret o <> AVERROR ENOMEM ->
  open_fds (rev (o_hist o)) = [].
Proof.
  intros Hh Hrun H0 Hm. rewrite open_after_rev.
  refine (run_invariant os listen_socket host prt ai h leak_inv
            (fun o => o_ret o <> 0 -> o_ret o <> AVERROR ENOMEM ->
                      open_after (o_hist o) = [])
            _ _ fuel _ o _ Hrun H0 Hm).
  - apply leak_inv_step.
  - intros c o' Hc Hs Hn0 Hnm.
    destruct (leak_inv_return c o' Hc Hs) as [E|(_ & [[E _]|E])];
      [exact E|contradiction|contradiction].
  - exact Hh.
Qed.


(** *** The wait loop *)

(** C3 (amended): at the head of a turn of the wait loop, (1) if the
    interrupt predicate is asserted, [tcp_open] returns AVERROR_EXIT with
    no further poll; (2) if it is not asserted yet, the poll slice of 100 ms
    that follows does not report readiness, and the predicate is asserted
    when that slice is over, [tcp_open] returns AVERROR_EXIT after exactly
    that one slice.  In both cases the calls after the abort is observed
    are only the close of the descriptor and the release of the address
    list: no remaining candidate is attempted. *)
Theorem wait_loop_abort :
  forall (c : config W),
    pc c = L_wait ->
    (forall i w1 fuel,
        url_interrupt_cb os (world c) = (i, w1) ->
        i <> 0 ->
        exists o,
          mrun (2 + fuel) c = Some o
          /\ o_ret o = AVERROR_EXIT
          /\ o_h o = h
          /\ o_hist o = abort_tail (l_fd c) ++ EvInterrupt i :: hist c)
    /\ (forall w1 p w2 i w3 fuel,
        url_interrupt_cb os (world c) = (0, w1) ->
        poll os (l_fd c) POLLOUT 100 w1 = (p, w2) ->
        p <= 0 ->
        url_interrupt_cb os w2 = (i, w3) ->
        i <> 0 ->
        exists o,
          mrun (3 + fuel) c = Some o
          /\ o_ret o = AVERROR_EXIT
          /\ o_h o = h
          /\ o_hist o =
               abort_tail (l_fd c) ++ EvInterrupt i
                 :: EvPoll (l_fd c) POLLOUT 100 p :: EvInterrupt 0 :: hist c).
Proof.
  intros [p0 f r cur nx w0 hs] Hpc. cbn [pc l_fd world hist] in *. subst p0.
  assert (Habort : forall i wa wb hs' fuel r',
             url_interrupt_cb os wa = (i, wb) -> i <> 0 ->
             exists o,
               mrun (2 + fuel) (mk_config L_wait f r' cur nx wa hs') = Some o
               /\ o_ret o = AVERROR_EXIT /\ o_h o = h
               /\ o_hist o = abort_tail f ++ EvInterrupt i :: hs').
  { intros i wa wb hs' fuel r' Hi Hne.
    cbn [Nat.add run]. unfold step at 1. cbn [pc].
    unfold block_wait, goto. proj_simpl. rewrite Hi.
    destruct (Z.eqb_spec i 0) as [|_]; [contradiction|]. cbn [negb].
    unfold step. cbn [pc]. unfold block_fail1, abort_tail. proj_simpl.
    destruct (f >=? 0); eexists; (split; [reflexivity|]); repeat split. }
  split.
  - intros i w1 fuel Hi Hne. eapply Habort; eassumption.
  - intros w1 p w2 i w3 fuel H0 Hp Hle Hi Hne.
    change (3 + fuel)%nat with (S (2 + fuel)).
    cbn [run]. unfold step at 1. cbn [pc].
    unfold block_wait, goto. proj_simpl. rewrite H0, Hp. cbn [Z.eqb negb].
    destruct (Z.gtb_spec p 0) as [Hgt|_]; [lia|].
    eapply Habort; eassumption.
Qed.

(** *** The first connect *)

(** In connect mode the block after a successful socket call is the
    connect on the new descriptor: nothing is called on the descriptor in
    between, and ff_socket_nonblock comes in the block after it. *)
Lemma connect_follows_socket (c : config W) (fd0 : Z) (w1 w2 : W) (r : Z) :
  listen_socket = 0 ->
  pc c = L_restart ->
  socket os (ai_family (cur_ai c)) (ai_socktype (cur_ai c))
    (ai_protocol (cur_ai c)) (world c) = (fd0, w1) ->
  0 <= fd0 ->
  connect os fd0 (ai_addr (cur_ai c)) (ai_addrlen (cur_ai c)) w1 = (r, w2) ->
  msteps 2 c =
  inl (mk_config L_nonblock fd0 r (cur_ai c) (ai_next c) w2
         (EvConnect fd0 (ai_addr (cur_ai c)) (ai_addrlen (cur_ai c)) r
            :: EvSocket (cur_ai c) fd0 :: hist c)).
Proof.
  destruct c as [p0 f r0 cur nx w0 hs]. proj_simpl.
  intros Hl -> Hs Hpos Hc.
  cbn [steps]. unfold step at 1. cbn [pc].
  unfold block_restart, goto. proj_simpl. rewrite Hs, Hl.
  destruct (Z.ltb_spec fd0 0) as [|_]; [lia|]. cbn [Z.eqb negb].
  unfold step. cbn [pc]. unfold block_redo, goto. proj_simpl.
  rewrite Hc. reflexivity.
Qed.

(** *** Interrupted connect *)


(** After a failed call with an EINTR reading and the interrupt predicate
    asserted, the next two blocks are the jump to [fail1] and the return of
    AVERROR_EXIT: the descriptor in hand is closed, the address list is
    released, and nothing else is called. *)
Lemma eintr_abort (c : config W) (i : Z) (w2 : W) (fuel : nat) :
  pc c = L_nonblock ->
  l_ret c < 0 ->
  ff_neterrno os (ff_socket_nonblock os (l_fd c) 1 (world c)) = AVERROR EINTR ->
  url_interrupt_cb os (ff_socket_nonblock os (l_fd c) 1 (world c)) = (i, w2) ->
  i <> 0 ->
  mrun (2 + fuel) c =
  Some (mk_outcome AVERROR_EXIT h
          (freeaddrinfo os ai
             (if l_fd c >=? 0 then closesocket os (l_fd c) w2 else w2))
          (abort_tail (l_fd c) ++ EvInterrupt i :: EvNeterrno (AVERROR EINTR)
             :: EvNonblock (l_fd c) 1 :: hist c)).
Proof.
  destruct c as [p0 f r0 cur nx w0 hs]. proj_simpl.
  intros -> Hneg He Hi Hne.
  cbn [Nat.add run]. unfold step at 1. cbn [pc].
  unfold block_nonblock, goto. proj_simpl.
  destruct (Z.ltb_spec r0 0) as [_|]; [|lia].
  rewrite He, Z.eqb_refl, Hi.
  destruct (Z.eqb_spec i 0) as [|_]; [contradiction|]. cbn [negb].
  unfold step. cbn [pc]. unfold block_fail1, abort_tail. proj_simpl.
  destruct (f >=? 0); reflexivity.
Qed.

(** At the head of a turn of the wait loop with the interrupt predicate
    asserted, the next two blocks are the jump to [fail1] and the return of
    AVERROR_EXIT: the descriptor in hand is closed, the address list is
    released, and nothing else is called. *)
Lemma wait_abort (c : config W) (i : Z) (w1 : W) (fuel : nat) :
  pc c = L_wait ->
  url_interrupt_cb os (world c) = (i, w1) ->
  i <> 0 ->
  mrun (2 + fuel) c =
  Some (mk_outcome AVERROR_EXIT h
          (freeaddrinfo os ai
             (if l_fd c >=? 0 then closesocket os (l_fd c) w1 else w1))
          (abort_tail (l_fd c) ++ EvInterrupt i :: hist c)).
Proof.
  destruct c as [p0 f r0 cur nx w0 hs]. proj_simpl.
  intros -> Hi Hne.
  cbn [Nat.add run]. unfold step at 1. cbn [pc].
  unfold block_wait, goto. proj_simpl. rewrite Hi.
  destruct (Z.eqb_spec i 0) as [|_]; [contradiction|]. cbn [negb].
  unfold step. cbn [pc]. unfold block_fail1, abort_tail. proj_simpl.
  destruct (f >=? 0); reflexivity.
Qed.

(** *** Listen mode *)

(** C5 (amended): in listen mode the candidates are tried as in connect
    mode.  When the socket of a candidate cannot be created, or its bind
    fails and the errno read afterwards is a hard one (not EINTR,
    EINPROGRESS or EAGAIN), [tcp_open] goes on to the next candidate if
    there is one, and otherwise returns AVERROR(EIO) and leaves the
    context as it was. *)
Theorem listen_candidate_failure :
  forall (c : config W) (fd0 : Z) (w1 : W),
    listen_socket <> 0 ->
    pc c = L_restart ->
    socket os (ai_family (cur_ai c)) (ai_socktype (cur_ai c))
      (ai_protocol (cur_ai c)) (world c) = (fd0, w1) ->
    (fd0 < 0
     \/ exists r w2 lr w3 fd1 w4,
          0 <= fd0
          /\ bind os fd0 (ai_addr (cur_ai c)) (ai_addrlen (cur_ai c)) w1 = (r, w2)
          /\ r < 0
          /\ listen os fd0 1 w2 = (lr, w3)
          /\ accept os fd0 w3 = (fd1, w4)
          /\ hard_errno
               (ff_neterrno os
                  (ff_socket_nonblock os fd1 1 (closesocket os fd0 w4)))) ->
    (forall nxt rest,
        ai_next c = nxt :: rest ->
        exists n c',
          msteps n c = inl c'
          /\ pc c' = L_restart /\ cur_ai c' = nxt /\ ai_next c' = rest)
    /\ (ai_next c = [] ->
        exists n, forall fuel, exists o,
          mrun (n + fuel) c = Some o
          /\ o_ret o = AVERROR EIO
          /\ o_h o = h).
Proof.
  intros [p0 f r0 cur nx w0 hs] fd0 w1 Hlisten. proj_simpl.
  intros -> Hsock Hfail.
  assert (Hl : negb (listen_socket =? 0) = true).
  { apply negb_true_iff, Z.eqb_neq. exact Hlisten. }
  destruct Hfail as [Hneg|(r & w2 & lr & w3 & fd1 & w4 & Hpos & Hb & Hr & Hli & Ha & He)].
  - split.
    + intros nxt rest ->. exists 2%nat. eexists.
      cbn [steps]. unfold step at 1. cbn [pc].
      unfold block_restart, goto. proj_simpl. rewrite Hsock.
      destruct (Z.ltb_spec fd0 0) as [_|]; [|lia].
      unfold step. cbn [pc]. unfold block_fail. proj_simpl.
      destruct (Z.geb_spec fd0 0) as [|_]; [lia|].
      repeat split.
    + intros ->. exists 3%nat. intros fuel.
      cbn [Nat.add run]. unfold step at 1. cbn [pc].
      unfold block_restart, goto. proj_simpl. rewrite Hsock.
      destruct (Z.ltb_spec fd0 0) as [_|]; [|lia].
      unfold step at 1. cbn [pc]. unfold block_fail, goto. proj_simpl.
      unfold step. cbn [pc]. unfold block_fail1. proj_simpl.
      destruct (Z.geb_spec fd0 0) as [|_]; [lia|].
      eexists. repeat split.
  - destruct He as (He1 & He2 & He3).
    apply Z.eqb_neq in He1, He2, He3.
    assert (Hnb : forall hs',
      mstep (mk_config L_restart f r0 cur nx w0 hs') =
      inl (mk_config L_nonblock fd1 r cur nx (closesocket os fd0 w4)
             ([EvClose fd0; EvAccept fd0 fd1; EvListen fd0 1 lr;
               EvBind fd0 (ai_addr cur) (ai_addrlen cur) r; EvSocket cur fd0]
                ++ hs'))).
    { intros hs'. unfold step. cbn [pc].
      unfold block_restart, goto. proj_simpl. rewrite Hsock.
      destruct (Z.ltb_spec fd0 0) as [|_]; [lia|].
      rewrite Hl, Hb, Hli, Ha. reflexivity. }
    assert (Hfl : forall w' hs',
      w' = closesocket os fd0 w4 ->
      mstep (mk_config L_nonblock fd1 r cur nx w' hs') =
      inl (mk_config L_fail fd1 r cur nx (ff_socket_nonblock os fd1 1 w')
             ([EvNeterrno (ff_neterrno os (ff_socket_nonblock os fd1 1 w'));
               EvNonblock fd1 1] ++ hs'))).
    { intros w' hs' ->. unfold step. cbn [pc].
      unfold block_nonblock, goto. proj_simpl.
      destruct (Z.ltb_spec r 0) as [_|]; [|lia].
      rewrite He1, He2, He3. reflexivity. }
    split.
    + intros nxt rest ->. exists 3%nat.
      cbn [steps]. rewrite Hnb, (Hfl _ _ eq_refl).
      unfold step. cbn [pc]. unfold block_fail. proj_simpl.
      destruct (fd1 >=? 0); eexists; repeat split.
    + intros ->. exists 4%nat. intros fuel.
      cbn [Nat.add run]. rewrite Hnb, (Hfl _ _ eq_refl).
      unfold step at 1. cbn [pc]. unfold block_fail, goto. proj_simpl.
      unfold step. cbn [pc]. unfold block_fail1. proj_simpl.
      destruct (fd1 >=? 0); eexists; repeat split.
Qed.

End ConnectFacts.

(** ** Whole runs of tcp_open *)

Section OpenRuns.

Context {W : Type}.
Variable os : OS W.

(** The three ways through [tcp_open]: the argument check fails, the
    resolver fails, or the connect machine runs from [restart] on the
    first candidate. *)
Lemma tcp_open_cases fuel h uri flags w o :
  tcp_open os fuel h uri flags w = Some o ->
  o = mk_outcome (AVERROR EINVAL) h w []
  \/ (exists code w1 msg node service,
        getaddrinfo os (hostname (av_url_split os 1024 0 1024 1024 uri))
          (snprintf_d 10 (port (av_url_split os 1024 0 1024 1024 uri)))
          tcp_hints w = (GaiError code, w1)
        /\ o = mk_outcome (AVERROR EIO) h (av_log os msg w1)
                 [EvLog msg; EvGetaddrinfo node service tcp_hints (GaiError code)])
  \/ (exists first next w1 node service,
        getaddrinfo os (hostname (av_url_split os 1024 0 1024 1024 uri))
          (snprintf_d 10 (port (av_url_split os 1024 0 1024 1024 uri)))
          tcp_hints w = (GaiOk first next, w1)
        /\ run os (tcp_listen_socket uri)
             (hostname (av_url_split os 1024 0 1024 1024 uri))
             (port (av_url_split os 1024 0 1024 1024 uri))
             (first :: next) h fuel
             (mk_config L_restart (-1) 0 first next w1
                [EvGetaddrinfo node service tcp_hints (GaiOk first next)])
           = Some o).
Proof.
  unfold tcp_open.
  destruct (negb (strcmp (proto (av_url_split os 1024 0 1024 1024 uri)) "tcp" =? 0)
            || (port (av_url_split os 1024 0 1024 1024 uri) <=? 0)
            || (port (av_url_split os 1024 0 1024 1024 uri) >=? 65536)).
  - intros E. injection E as <-. now left.
  - destruct (getaddrinfo os _ _ tcp_hints w) as [[first next|code] w1] eqn:Hg.
    + intros Hrun. right. right. do 5 eexists. split; [reflexivity|exact Hrun].
    + intros E. injection E as <-. right. left. do 5 eexists.
      split; reflexivity.
Qed.

(** The history [tcp_open] returns records what it did to the world: each
    entry is a call made on the world the previous one left, with the
    recorded arguments and the recorded result, and the world returned is
    the one the last call left. *)
Lemma tcp_open_faithful fuel h uri flags w o :
  tcp_open os fuel h uri flags w = Some o ->
  faithful os w (o_hist o) (o_world o).
Proof.
  unfold tcp_open.
  destruct (negb (strcmp (proto (av_url_split os 1024 0 1024 1024 uri)) "tcp" =? 0)
            || (port (av_url_split os 1024 0 1024 1024 uri) <=? 0)
            || (port (av_url_split os 1024 0 1024 1024 uri) >=? 65536)).
  - intros E. injection E as <-. apply replay_nil.
  - destruct (getaddrinfo os _ _ tcp_hints w) as [[first next|code] w1] eqn:Hg.
    + intros Hrun. eapply run_faithful; [reflexivity|exact Hg|exact Hrun].
    + intros E. injection E as <-. unfold faithful. cbn [o_hist o_world resolved_list].
      eapply replay_cons; [|apply pf_log].
      eapply replay_cons; [apply replay_nil|]. constructor. exact Hg.
Qed.

(** C4: when the resolver returned the candidates [first :: next] and
    [tcp_open] returns, (1) the candidates a socket was asked for are, in
    the order of the calls, an initial part of [first :: next]; (2) every
    socket call comes right after the resolver's answer (the first
    candidate) or after the genuine failure of the previous candidate (its
    socket call failed; or its connect returned a negative value and the
    errno read is a hard one; or its pending error is not zero: never
    EINTR, never an abort, never a connect that did not fail) and the close
    of its descriptor; (3) when the result is AVERROR(EIO), a socket was
    asked for every candidate and the last one failed genuinely too;
    (4) the history these facts are read from records the calls as they
    were made on the world. *)
Theorem tcp_open_candidate_order :
  forall (fuel : nat) (h : URLContext) (uri : string) (flags : Z) (w w1 : W)
         (first : addrinfo) (next : list addrinfo) (o : outcome W),
    getaddrinfo os (hostname (av_url_split os 1024 0 1024 1024 uri))
      (snprintf_d 10 (port (av_url_split os 1024 0 1024 1024 uri)))
      tcp_hints w = (GaiOk first next, w1) ->
    tcp_open os fuel h uri flags w = Some o ->
    (exists untried, sockets (o_hist o) ++ untried = first :: next)
    /\ (forall cur s t,
          moment (EvSocket cur s :: t) (o_hist o) -> socket_cause t)
    /\ (o_ret o = AVERROR EIO ->
        sockets (o_hist o) = first :: next
        /\ exists t, genuine_failure t
             /\ (o_hist o = EvFreeaddrinfo :: t
                 \/ exists s, o_hist o = EvFreeaddrinfo :: EvClose s :: t))
    /\ faithful os w (o_hist o) (o_world o).
Proof.
  intros fuel h uri flags w w1 first next o Hgai Hopen.
  pose proof (tcp_open_faithful _ _ _ _ _ _ Hopen) as Hf.
  apply tcp_open_cases in Hopen
    as [->|[(code & w' & msg & nd & sv & Hg & _)
           |(f' & n' & w' & nd & sv & Hg & Hrun)]].
  - cbn [o_hist o_ret sockets app] in *. split; [|split; [|split]].
    + now exists (first :: next).
    + intros cur s t Hm. apply moment_nil_inv in Hm. discriminate.
    + intros E. discriminate E.
    + exact Hf.
  - rewrite Hgai in Hg. discriminate.
  - rewrite Hgai in Hg. injection Hg as <- <- <-.
    eapply run_order in Hrun; [|reflexivity].
    destruct Hrun as (H1 & H2 & H3).
    split; [exact H1|]. split; [exact H2|]. split; [exact H3|exact Hf].
Qed.


(** X1: every return of [tcp_open] with a result other than 0 and
    AVERROR(ENOMEM) leaves no descriptor open: closesocket was applied to
    each descriptor a socket or accept call returned, and the world
    [tcp_open] returns is the one these calls, made in the order of the
    history, left. *)
Theorem tcp_open_failure_closes_descriptor :
  forall (fuel : nat) (h : URLContext) (uri : string) (flags : Z) (w : W)
         (o : outcome W),
    tcp_open os fuel h uri flags w = Some o ->
    o_ret o <> 0 -> o_ret o <> AVERROR ENOMEM ->
    open_fds (rev (o_hist o)) = []
    /\ faithful os w (o_hist o) (o_world o).
Proof.
  intros fuel h uri flags w o Hopen H0 Hm.
  split; [|eapply tcp_open_faithful; exact Hopen].
  apply tcp_open_cases in Hopen
    as [->|[(code & w' & msg & nd & sv & Hg & ->)
           |(f' & n' & w' & nd & sv & Hg & Hrun)]]; try reflexivity.
  eapply run_closes_descriptor; [|exact Hrun|exact H0|exact Hm].
  reflexivity.
Qed.

End OpenRuns.


(** ** The listen option *)

Lemma span_string_length stop s :
  (String.length (snd (span_string stop s)) <= String.length s)%nat.
Proof.
  induction s as [|a s IH]; simpl; [lia|].
  destruct (stop a); simpl; [lia|].
  destruct (span_string stop s) as [tk rest]. simpl in *. lia.
Qed.

(** What is left after a span is empty or starts with a stop character. *)
Lemma span_string_rest stop s :
  snd (span_string stop s) = EmptyString
  \/ exists a s', snd (span_string stop s) = String a s' /\ stop a = true.
Proof.
  induction s as [|a s IH]; simpl; [now left|].
  destruct (stop a) eqn:E; simpl.
  - right. now exists a, s.
  - destruct (span_string stop s) as [tk rest]. exact IH.
Qed.

Lemma split_on_amp_span s :
  split_on "&" s =
  fst (span_string is_amp s)
    :: match snd (span_string is_amp s) with
       | EmptyString => []
       | String _ rest => split_on "&" rest
       end.
Proof.
  induction s as [|a s IH]; simpl; [reflexivity|].
  change (is_amp a) with (Ascii.eqb a "&").
  destruct (Ascii.eqb a "&"); simpl; [reflexivity|].
  rewrite IH. destruct (span_string is_amp s) as [tk rest]. reflexivity.
Qed.

(** One turn of the scan reads the name of the first option and stops at
    the end of that option. *)
Lemma span_name_of_item p :
  fst (span_string is_eq_or_amp p) = option_name (fst (span_string is_amp p))
  /\ match snd (span_string is_eq_or_amp p) with
     | String "=" p1' => snd (span_string is_amp p1')
     | p1 => p1
     end = snd (span_string is_amp p).
Proof.
  induction p as [|a p [IH1 IH2]]; simpl; [split; reflexivity|].
  change (is_eq_or_amp a) with (Ascii.eqb a "=" || Ascii.eqb a "&").
  change (is_amp a) with (Ascii.eqb a "&").
  destruct (Ascii.eqb_spec a "&") as [->|Hamp]; simpl.
  - split; reflexivity.
  - destruct (Ascii.eqb_spec a "=") as [->|Heq]; simpl.
    + destruct (span_string is_amp p) as [tk rest]. split; reflexivity.
    + destruct (span_string is_eq_or_amp p) as [nm p1].
      destruct (span_string is_amp p) as [tk rest]. simpl in *.
      apply Ascii.eqb_neq in Heq. rewrite Heq.
      split; [now rewrite IH1|exact IH2].
Qed.

Lemma string_take_short n : forall s t,
  string_take n s = t -> (String.length t < n)%nat -> s = t.
Proof.
  induction n as [|n IH]; intros s t E Hlen; [lia|].
  destruct s as [|a s]; simpl in E; [exact E|].
  subst t. simpl in Hlen. f_equal. apply IH; [reflexivity|lia].
Qed.

Lemma string_take_long n : forall s,
  (String.length s <= n)%nat -> string_take n s = s.
Proof.
  induction n as [|n IH]; intros [|a s] Hlen; simpl in *; try reflexivity; try lia.
  f_equal. apply IH. lia.
Qed.

(** The scan finds a tag exactly when it names one of the options. *)
Lemma find_info_tag_loop_spec arg_size tag1 :
  (String.length tag1 < 127)%nat ->
  forall fuel p,
    (String.length p < fuel)%nat ->
    (fst (find_info_tag_loop fuel arg_size tag1 p) = 1
       <-> In tag1 (query_options p))
    /\ (fst (find_info_tag_loop fuel arg_size tag1 p) = 1
        \/ fst (find_info_tag_loop fuel arg_size tag1 p) = 0).
Proof.
  intros Htag fuel.
  induction fuel as [|fuel IH]; intros p Hlen; [lia|].
  unfold query_options. rewrite split_on_amp_span.
  cbn [find_info_tag_loop map In].
  destruct (span_name_of_item p) as [Hname Hrest].
  pose proof (span_string_length is_amp p) as Hle.
  pose proof (span_string_rest is_amp p) as Hstop.
  destruct (span_string is_eq_or_amp p) as [name p1]. cbn [fst snd] in *.
  destruct (span_string is_amp p) as [item rest]. cbn [fst snd] in *.
  set (arg_p2 := match p1 with
                 | String "=" p1' =>
                     let (v, p2) := span_string is_amp p1' in
                     (string_take (Nat.pred arg_size) (string_map plus_to_space v), p2)
                 | _ => (EmptyString, p1)
                 end).
  assert (Hp2 : snd arg_p2 = rest).
  { subst arg_p2. rewrite <- Hrest. clear.
    destruct p1 as [|a p1']; [reflexivity|].
    destruct a as [[] [] [] [] [] [] [] []]; try reflexivity.
    destruct (span_string is_amp p1'); reflexivity. }
  destruct arg_p2 as [arg p2]. cbn [snd] in Hp2. subst p2.
  destruct (String.eqb_spec (string_take 127 name) tag1) as [Heq|Hne].
  - cbn [fst]. split; [|now left]. split; [|reflexivity].
    intros _. left. rewrite <- Hname.
    apply string_take_short in Heq; [exact Heq|exact Htag].
  - assert (Hnm : option_name item <> tag1).
    { intros E. apply Hne. rewrite Hname, E.
      apply string_take_long. lia. }
    destruct Hstop as [->|(a & s' & -> & Ha)].
    + cbn [fst map In]. split; [|now right]. split; [discriminate|].
      intros [E|[]]. contradiction.
    + unfold is_amp in Ha. apply Ascii.eqb_eq in Ha. subst a.
      assert (Hlen' : (String.length s' < fuel)%nat) by (simpl in Hle; lia).
      destruct (IH s' Hlen') as [Hiff Hbit].
      split; [|exact Hbit].
      rewrite Hiff. unfold query_options. split; [now right|].
      intros [E|Hin]; [contradiction|exact Hin].
Qed.

Lemma strchr_app_question pre q :
  strchr pre "?" = None ->
  strchr (pre ++ String "?" q) "?" = Some (String "?" q).
Proof.
  induction pre as [|a pre IH]; simpl; [reflexivity|].
  destruct (Ascii.eqb a "?"); [discriminate|exact IH].
Qed.

Lemma tcp_listen_socket_spec pre q :
  strchr pre "?" = None ->
  tcp_listen_socket (pre ++ String "?" q) = 1
  <-> In "listen"%string (query_options q).
Proof.
  intros Hpre. unfold tcp_listen_socket.
  rewrite (strchr_app_question pre q Hpre).
  unfold av_find_info_tag.
  destruct (find_info_tag_loop_spec 256 "listen" ltac:(simpl; lia)
              (S (String.length q)) q ltac:(lia)) as [Hiff [H1|H0]].
  - rewrite H1 in *. simpl. rewrite <- Hiff. tauto.
  - rewrite H0 in *. simpl. rewrite <- Hiff. split; discriminate.
Qed.

Lemma query_options_listen_value v :
  In "listen"%string (query_options ("listen=" ++ v)).
Proof.
  unfold query_options. rewrite split_on_amp_span. left.
  simpl. destruct (span_string is_amp v). reflexivity.
Qed.

(** C10: for a URI whose first question mark is followed by the query
    string [q], the listen flag is set exactly when listen is the name of
    one of the options of [q], whatever the value of that option (or with
    no value at all); in particular a query string that starts with
    listen= selects listen mode for every value [v], 0 as well as 1. *)
Theorem tcp_listen_socket_any_value :
  forall (pre : string),
    strchr pre "?" = None ->
    (forall q,
        tcp_listen_socket (pre ++ String "?" q) = 1
        <-> In "listen"%string (query_options q))
    /\ (forall v,
          tcp_listen_socket (pre ++ String "?" ("listen=" ++ v)) = 1).
Proof.
  intros pre Hpre. split.
  - intros q. now apply tcp_listen_socket_spec.
  - intros v. apply tcp_listen_socket_spec; [exact Hpre|].
    apply query_options_listen_value.
Qed.

(** ** What every run of the connect machine shows *)

Ltac use_bools :=
  repeat match goal with
    | H : _ = true |- _ => rewrite H
    | H : _ = false |- _ => rewrite H
    end.

Section RunFacts.

Context {W : Type}.
Variable os : OS W.
Variable listen_socket : Z.
Variable host : string.
Variable prt : Z.
Variable ai : list addrinfo.
Variable h : URLContext.

Local Abbreviation mstep := (step os listen_socket host prt ai h).
Local Abbreviation mrun := (run os listen_socket host prt ai h).

(** *** The cause of a return *)

Lemma cause_inv_step c c' :
  cause_inv c -> mstep c = inl c' -> cause_inv c'.
Proof.
  intros (Hm & Hf & Hr & Ha) Hstep. unfold cause_inv in *.
  break_step Hstep; proj_simpl;
    cbn [mallocs count_free resolved aborted existsb is_resolved is_abort app];
    fold (resolved (hist c)); fold (aborted (hist c));
    rewrite ?Hm, ?Hf, ?Hr, ?Ha; use_bools; cbn [orb negb].
  all: repeat (split; [reflexivity|]); try reflexivity.
  all: first [left; split; reflexivity | right; split; reflexivity].
Qed.

Lemma cause_inv_return c o :
  cause_inv c -> mstep c = inr o -> cause_post o.
Proof.
  intros (Hm & Hf & Hr & Ha) Hstep. unfold cause_inv, cause_post in *.
  break_step Hstep; proj_simpl;
    cbn [mallocs count_free resolved aborted existsb is_resolved is_abort app];
    fold (resolved (hist c)); fold (aborted (hist c));
    rewrite ?Hm, ?Hf, ?Hr; cbn [orb negb].
  all: split; [reflexivity|]; split; [eexists; reflexivity|];
    split; [reflexivity|].
  - destruct b; [discriminate|]. right. left. rewrite Ha. repeat split.
  - destruct b; [|discriminate]. left. rewrite Ha. repeat split.
  - destruct Ha as [[-> ->]|[-> ->]]; [right; right; left|right; right; right];
      repeat split.
  - destruct Ha as [[-> ->]|[-> ->]]; [right; right; left|right; right; right];
      repeat split.
Qed.

Lemma run_cause fuel first next (w : W) fd0 ret0 node service hints o :
  mrun fuel
    (mk_config L_restart fd0 ret0 first next w
       [EvGetaddrinfo node service hints (GaiOk first next)]) = Some o ->
  cause_post o.
Proof.
  intros Hrun.
  refine (run_invariant os listen_socket host prt ai h cause_inv cause_post
            _ _ fuel _ o _ Hrun).
  - apply cause_inv_step.
  - apply cause_inv_return.
  - repeat split.
Qed.

(** *** The context and the descriptor *)

Lemma ctx_inv_step c c' :
  ctx_inv c -> mstep c = inl c' -> ctx_inv c'.
Proof.
  intros (Hl & Hc & Hf) Hstep. split; [|split].
  - eapply leak_inv_step; eassumption.
  - break_step Hstep; proj_simpl; intros Hne;
      try (exfalso; apply Hne; reflexivity);
      cbn [last_created]; try reflexivity; apply Hc; discriminate.
  - break_step Hstep; proj_simpl; intros Hpc; try discriminate Hpc;
      discriminate.
Qed.

Lemma ctx_inv_return c o :
  ctx_inv c -> mstep c = inr o -> ctx_post h o.
Proof.
  intros (Hl & Hc & Hf) Hstep. unfold ctx_post, leak_inv, held in *.
  break_step Hstep; proj_simpl;
    cbn [last_created open_after fold_right track_fd];
    fold (open_after (hist c)); rewrite ?Hl.
  - left. split; [discriminate|reflexivity].
  - right. exists (l_fd c). repeat split. apply Hc. discriminate.
  - left. split; [now apply Hf|reflexivity].
  - left. split; [now apply Hf|reflexivity].
Qed.

Lemma run_ctx fuel first next (w : W) ret0 hst o :
  open_after hst = [] ->
  mrun fuel (mk_config L_restart (-1) ret0 first next w hst) = Some o ->
  ctx_post h o.
Proof.
  intros Hh Hrun.
  refine (run_invariant os listen_socket host prt ai h ctx_inv (ctx_post h)
            _ _ fuel _ o _ Hrun).
  - apply ctx_inv_step.
  - apply ctx_inv_return.
  - split; [exact Hh|split]; cbn [pc]; [intros Hne; now contradiction Hne|discriminate].
Qed.


(** *** Closes *)

Lemma close_moments_cons e hst :
  close_moments hst ->
  (forall s, e = EvClose s -> In s (open_after hst)) ->
  close_moments (e :: hst).
Proof.
  intros Hm He s t Hmom.
  apply moment_cons_inv in Hmom as [E|Hmom].
  - injection E as <- <-. apply He. reflexivity.
  - apply Hm. exact Hmom.
Qed.

Ltac closes :=
  repeat (apply close_moments_cons; [|intros; discriminate]);
  try assumption.

Lemma close_inv_step c c' :
  close_moments (hist c) /\ leak_inv c -> mstep c = inl c' ->
  close_moments (hist c') /\ leak_inv c'.
Proof.
  intros (Hm & Hl) Hstep. split; [|eapply leak_inv_step; eassumption].
  unfold leak_inv, held in Hl.
  break_step Hstep; proj_simpl; closes.
  - apply close_moments_cons; [closes|].
    intros s E. injection E as <-.
    cbn [open_after fold_right track_fd]. fold (open_after (hist c)).
    bools. destruct (Z.geb_spec z 0); [|lia].
    destruct (z2 >=? 0); simpl; tauto.
  - apply close_moments_cons; [assumption|].
    intros s E. injection E as <-. rewrite Hl. now left.
Qed.

Lemma close_inv_return c o :
  close_moments (hist c) /\ leak_inv c -> mstep c = inr o ->
  close_moments (o_hist o).
Proof.
  intros (Hm & Hl) Hstep. unfold leak_inv, held in Hl.
  break_step Hstep; proj_simpl; closes.
  apply close_moments_cons; [assumption|].
  intros s E. injection E as <-. rewrite Hl. now left.
Qed.

Lemma run_closes fuel first next (w : W) ret0 node service hints res o :
  mrun fuel
    (mk_config L_restart (-1) ret0 first next w
       [EvGetaddrinfo node service hints res]) = Some o ->
  close_moments (o_hist o).
Proof.
  intros Hrun.
  refine (run_invariant os listen_socket host prt ai h
            (fun c => close_moments (hist c) /\ leak_inv c)
            (fun o => close_moments (o_hist o))
            _ _ fuel _ o _ Hrun).
  - apply close_inv_step.
  - apply close_inv_return.
  - split; [|reflexivity].
    intros s t Hm. cbn [hist] in Hm.
    apply moment_cons_inv in Hm as [E|Hm]; [discriminate|].
    apply moment_nil_inv in Hm. discriminate.
Qed.

(** *** Polls *)

Lemma poll_moments_cons e hst :
  poll_moments hst ->
  (forall s ev tm r,
      e = EvPoll s ev tm r ->
      ev = POLLOUT /\ tm = 100 /\ exists t', hst = EvInterrupt 0 :: t') ->
  (forall s v,
      e = EvGetsockopt s v ->
      exists r t', 0 < r /\ hst = EvPoll s POLLOUT 100 r :: t') ->
  poll_moments (e :: hst).
Proof.
  intros [Hp Hg] He1 He2. split.
  - intros s ev tm r t Hmom.
    apply moment_cons_inv in Hmom as [E|Hmom].
    + injection E as <- <-. eapply He1. reflexivity.
    + eapply Hp. exact Hmom.
  - intros s v t Hmom.
    apply moment_cons_inv in Hmom as [E|Hmom].
    + injection E as <- <-. eapply He2. reflexivity.
    + eapply Hg. exact Hmom.
Qed.

Ltac polls :=
  repeat (apply poll_moments_cons; [|intros; discriminate|intros; discriminate]);
  try assumption.

Lemma poll_inv_step c c' :
  poll_inv c -> mstep c = inl c' -> poll_inv c'.
Proof.
  intros (Hm & Ht) Hstep. unfold poll_inv in *.
  break_step Hstep; bools; proj_simpl.
  all: split; [|intros Hpc; try discriminate Hpc].
  all: polls.
  all: try match goal with
    | |- poll_moments (EvPoll _ _ _ _ :: EvInterrupt _ :: _) =>
        apply poll_moments_cons; [polls| |intros; discriminate];
        intros ? ? ? ? E; injection E as <- <- <- <-;
        repeat split; eexists; subst; reflexivity
    | |- poll_moments (EvGetsockopt _ _ :: _) =>
        destruct (Ht eq_refl) as (r & t' & Hr & E);
        apply poll_moments_cons; [assumption|intros; discriminate|];
        intros ? ? E'; injection E' as <- <-;
        exists r, t'; split; assumption
    | |- exists _ _, _ /\ _ = _ =>
        do 2 eexists; split; [|reflexivity]; assumption
    end.
Qed.

Lemma poll_inv_return c o :
  poll_inv c -> mstep c = inr o -> poll_moments (o_hist o).
Proof.
  intros (Hm & Ht) Hstep.
  break_step Hstep; proj_simpl; polls.
Qed.

Lemma run_polls fuel first next (w : W) fd0 ret0 node service hints res o :
  mrun fuel
    (mk_config L_restart fd0 ret0 first next w
       [EvGetaddrinfo node service hints res]) = Some o ->
  poll_moments (o_hist o).
Proof.
  intros Hrun.
  refine (run_invariant os listen_socket host prt ai h poll_inv
            (fun o => poll_moments (o_hist o)) _ _ fuel _ o _ Hrun).
  - apply poll_inv_step.
  - apply poll_inv_return.
  - split; [split|discriminate].
    + intros s ev tm r t Hm. cbn [hist] in Hm.
      apply moment_cons_inv in Hm as [E|Hm]; [discriminate|].
      apply moment_nil_inv in Hm. discriminate.
    + intros s v t Hm. cbn [hist] in Hm.
      apply moment_cons_inv in Hm as [E|Hm]; [discriminate|].
      apply moment_nil_inv in Hm. discriminate.
Qed.

(** *** Connect mode *)

Lemma connect_mode_step c c' :
  listen_socket = 0 ->
  listen_calls (hist c) = false -> mstep c = inl c' ->
  listen_calls (hist c') = false.
Proof.
  intros Hl Hinv Hstep.
  break_step Hstep; proj_simpl;
    cbn [listen_calls existsb is_listen_call app orb];
    try exact Hinv.
  rewrite Hl in *. discriminate.
Qed.

Lemma connect_mode_return c o :
  listen_calls (hist c) = false -> mstep c = inr o ->
  listen_calls (o_hist o) = false.
Proof.
  intros Hinv Hstep.
  break_step Hstep; proj_simpl;
    cbn [listen_calls existsb is_listen_call app orb]; exact Hinv.
Qed.

Lemma run_connect_mode fuel c o :
  listen_socket = 0 ->
  listen_calls (hist c) = false ->
  mrun fuel c = Some o ->
  listen_calls (o_hist o) = false.
Proof.
  intros Hl Hinv Hrun.
  refine (run_invariant os listen_socket host prt ai h
            (fun c => listen_calls (hist c) = false)
            (fun o => listen_calls (o_hist o) = false)
            _ _ fuel c o Hinv Hrun).
  - intros c0 c' H0 Hs. eapply connect_mode_step; eassumption.
  - apply connect_mode_return.
Qed.


(** *** Accepts *)

Lemma accept_moments_cons e hst :
  accept_moments hst ->
  (forall s s1, e <> EvAccept s s1) ->
  accept_moments (e :: hst).
Proof.
  intros Hm He s s1 t Hmom.
  apply moment_cons_inv in Hmom as [E|Hmom].
  - exfalso. injection E as E _. symmetry in E. exact (He _ _ E).
  - destruct (Hm s s1 t Hmom) as (H0 & H1 & H2).
    split; [exact H0|]. split; [exact H1|]. now apply moment_cons.
Qed.

Lemma accept_moments_listen s s1 lr r cur hst :
  accept_moments hst ->
  0 <= s ->
  accept_moments
    (EvClose s :: EvAccept s s1 :: EvListen s 1 lr
       :: EvBind s (ai_addr cur) (ai_addrlen cur) r :: EvSocket cur s :: hst).
Proof.
  intros Hm Hs s' s1' t Hmom.
  apply moment_cons_inv in Hmom as [E|Hmom]; [discriminate E|].
  apply moment_cons_inv in Hmom as [E|Hmom].
  - injection E as -> -> ->. split; [exact Hs|]. split.
    + now exists cur, r, lr, hst.
    + apply moment_refl.
  - apply moment_cons_inv in Hmom as [E|Hmom]; [discriminate E|].
    apply moment_cons_inv in Hmom as [E|Hmom]; [discriminate E|].
    apply moment_cons_inv in Hmom as [E|Hmom]; [discriminate E|].
    destruct (Hm s' s1' t Hmom) as (H0 & H1 & H2).
    split; [exact H0|]. split; [exact H1|].
    now do 5 apply moment_cons.
Qed.

Ltac accepts :=
  repeat (apply accept_moments_cons; [|discriminate]);
  try assumption.

Lemma accept_inv_step c c' :
  accept_moments (hist c) -> mstep c = inl c' -> accept_moments (hist c').
Proof.
  intros Hm Hstep.
  break_step Hstep; bools; proj_simpl;
    first [apply accept_moments_listen; assumption | accepts].
Qed.

Lemma accept_inv_return c o :
  accept_moments (hist c) -> mstep c = inr o -> accept_moments (o_hist o).
Proof.
  intros Hm Hstep.
  break_step Hstep; proj_simpl; accepts.
Qed.

Lemma run_accepts fuel first next (w : W) fd0 ret0 node service hints res o :
  mrun fuel
    (mk_config L_restart fd0 ret0 first next w
       [EvGetaddrinfo node service hints res]) = Some o ->
  accept_moments (o_hist o).
Proof.
  intros Hrun.
  refine (run_invariant os listen_socket host prt ai h
            (fun c => accept_moments (hist c))
            (fun o => accept_moments (o_hist o)) _ _ fuel _ o _ Hrun).
  - apply accept_inv_step.
  - apply accept_inv_return.
  - intros s s1 t Hm. cbn [hist] in Hm.
    apply moment_cons_inv in Hm as [E|Hm]; [discriminate|].
    apply moment_nil_inv in Hm. discriminate.
Qed.

(** *** After an asserted interrupt check *)

Lemma abort_inv_step c c' :
  abort_inv c -> mstep c = inl c' -> abort_inv c'.
Proof.
  intros Ha Hstep. unfold abort_inv in *.
  break_step Hstep; proj_simpl;
    cbn [aborted existsb is_abort app]; fold (aborted (hist c));
    rewrite ?Ha; use_bools; cbn [orb negb]; try reflexivity.
  all: try (right; reflexivity).
  all: left; do 2 eexists; (split; [|split; [reflexivity|exact Ha]]);
    bools; assumption.
Qed.

Lemma abort_inv_return c o :
  abort_inv c -> mstep c = inr o -> abort_post o.
Proof.
  intros Ha Hstep. unfold abort_inv, abort_post in *.
  break_step Hstep; proj_simpl.
  - left. exact Ha.
  - left. exact Ha.
  - destruct Ha as [(i & t & Hi & -> & Ht)|Ha]; [|left; exact Ha].
    right. exists i, t. repeat split; try assumption. right. now eexists.
  - destruct Ha as [(i & t & Hi & -> & Ht)|Ha]; [|left; exact Ha].
    right. exists i, t. repeat split; try assumption. now left.
Qed.

Lemma run_abort fuel first next (w : W) fd0 ret0 node service hints res o :
  mrun fuel
    (mk_config L_restart fd0 ret0 first next w
       [EvGetaddrinfo node service hints res]) = Some o ->
  abort_post o.
Proof.
  intros Hrun.
  refine (run_invariant os listen_socket host prt ai h abort_inv abort_post
            _ _ fuel _ o _ Hrun).
  - apply abort_inv_step.
  - apply abort_inv_return.
  - reflexivity.
Qed.

(** *** The wait loop without an answer *)

(** X8: the wait loop has no exit of its own.  In an environment where
    the interrupt predicate is never asserted and no poll slice ever
    reports readiness, a run that has reached the wait loop does not
    return, whatever the number of blocks it is given: there is no overall
    connect deadline. *)
Theorem wait_loop_unbounded :
  (forall w, fst (url_interrupt_cb os w) = 0) ->
  (forall s w, fst (poll os s POLLOUT 100 w) <= 0) ->
  forall (fuel : nat) (c : config W),
    pc c = L_wait -> mrun fuel c = None.
Proof.
  intros Hi Hp fuel.
  induction fuel as [|fuel IH]; intros c Hpc; [reflexivity|].
  cbn [run]. unfold step. rewrite Hpc. unfold block_wait, goto.
  pose proof (Hi (world c)) as Hi0.
  destruct (url_interrupt_cb os (world c)) as [i w1]. cbn [fst] in Hi0.
  subst i. cbn [Z.eqb negb].
  pose proof (Hp (l_fd c) w1) as Hp0.
  destruct (poll os (l_fd c) POLLOUT 100 w1) as [r w2]. cbn [fst] in Hp0.
  destruct (Z.gtb_spec r 0) as [|_]; [lia|].
  apply IH. reflexivity.
Qed.


End RunFacts.

(** ** What every run of tcp_open shows *)

Section OpenShows.

Context {W : Type}.
Variable os : OS W.

(** The history is empty exactly when the argument check of lines 52-53
    fails. *)
Lemma tcp_open_checked fuel h uri fl w o :
  tcp_open os fuel h uri fl w = Some o ->
  o_hist o = [] <->
  (proto (av_url_split os 1024 0 1024 1024 uri) <> "tcp"%string
   \/ port (av_url_split os 1024 0 1024 1024 uri) <= 0
   \/ 65536 <= port (av_url_split os 1024 0 1024 1024 uri)).
Proof.
  unfold tcp_open, strcmp.
  set (parts := av_url_split os 1024 0 1024 1024 uri).
  destruct (String.eqb_spec (proto parts) "tcp") as [Heq|Hne];
    cbn [Z.eqb negb orb].
  - destruct (Z.leb_spec (port parts) 0) as [Hlo|Hlo]; cbn [orb].
    + intros E. injection E as <-. cbn [o_hist]. split; [|reflexivity].
      intros _. right. left. exact Hlo.
    + destruct (Z.geb_spec (port parts) 65536) as [Hhi|Hhi].
      * intros E. injection E as <-. cbn [o_hist]. split; [|reflexivity].
        intros _. right. right. exact Hhi.
      * intros Hopen.
        assert (Hne : o_hist o <> []).
        { destruct (getaddrinfo os _ _ tcp_hints w) as [[first next|code] w1].
          - apply run_cause in Hopen. destruct Hopen as (_ & (t & Ht) & _).
            rewrite Ht. discriminate.
          - injection Hopen as <-. discriminate. }
        split; [intros E; contradiction|].
        intros [Hp|[Hp|Hp]]; [contradiction|lia|lia].
  - intros E. injection E as <-. cbn [o_hist]. split; [|reflexivity].
    intros _. left. exact Hne.
Qed.

(** A run of [tcp_open] made no call on the world and returned
    AVERROR(EINVAL), or made the resolver call and the log call and
    returned AVERROR(EIO), or went through the connect machine. *)
Lemma tcp_open_shape fuel h uri fl w o :
  tcp_open os fuel h uri fl w = Some o ->
  (o_ret o = AVERROR EINVAL /\ o_h o = h /\ o_hist o = [])
  \/ (o_ret o = AVERROR EIO /\ o_h o = h
      /\ exists msg node service hints code,
           o_hist o = [EvLog msg; EvGetaddrinfo node service hints (GaiError code)])
  \/ (cause_post o /\ ctx_post h o /\ close_moments (o_hist o)
      /\ poll_moments (o_hist o)
      /\ (tcp_listen_socket uri = 0 -> listen_calls (o_hist o) = false)
      /\ accept_moments (o_hist o)
      /\ abort_post o).
Proof.
  intros Hopen.
  apply tcp_open_cases in Hopen
    as [->|[(code & w' & msg & nd & sv & Hg & ->)
           |(f' & n' & w' & nd & sv & Hg & Hrun)]].
  - left. repeat split.
  - right. left. repeat split. do 5 eexists. reflexivity.
  - right. right. split; [|split; [|split; [|split; [|split; [|split]]]]].
    + eapply run_cause. exact Hrun.
    + eapply run_ctx; [|exact Hrun]. reflexivity.
    + eapply run_closes. exact Hrun.
    + eapply run_polls. exact Hrun.
    + intros Hl. eapply run_connect_mode; [exact Hl| |exact Hrun]. reflexivity.
    + eapply run_accepts. exact Hrun.
    + eapply run_abort. exact Hrun.
Qed.

(** X2: when [tcp_open] returns a non-zero value the context is left
    exactly as it was passed in; when it returns 0 the context keeps its
    flags, has is_streamed set to 1 and holds a new TCPContext whose
    descriptor (the one [tcp_get_file_handle] then reports) is the result
    of the latest socket or accept call, and that descriptor, when not
    negative, is the only one left open. *)
Theorem tcp_open_context :
  forall (fuel : nat) (h : URLContext) (uri : string) (fl : Z) (w : W)
         (o : outcome W),
    tcp_open os fuel h uri fl w = Some o ->
    (o_ret o <> 0 -> o_h o = h)
    /\ (o_ret o = 0 ->
        exists s,
          o_h o = mk_URLContext (flags h) 1 (Some (mk_TCPContext s))
          /\ tcp_get_file_handle (o_h o) = Some s
          /\ last_created (o_hist o) = Some s
          /\ open_fds (rev (o_hist o)) = (if s >=? 0 then [s] else [])).
Proof.
  intros fuel h uri fl w o Hopen.
  apply tcp_open_shape in Hopen
    as [(Hr & Hh & _)|[(Hr & Hh & _)|(_ & Hc & _)]].
  - split; [intros _; exact Hh|]. rewrite Hr. discriminate.
  - split; [intros _; exact Hh|]. rewrite Hr. discriminate.
  - destruct Hc as [(Hne & Hh)|(s & Hr & Hh & Hl & Ho)].
    + split; [intros _; exact Hh|]. intros E. contradiction.
    + split; [intros Hne; contradiction|]. intros _.
      exists s. rewrite open_after_rev, Hh.
      repeat split; assumption.
Qed.

(** X3: [tcp_open] returns AVERROR_EXIT exactly when one of its calls of
    the interrupt predicate returned a non-zero value: the history records
    the calls as they were made on the world, the result is AVERROR_EXIT
    exactly when the history has an asserted check, and that is exactly
    when url_interrupt_cb, applied to the world the calls before it left,
    returned a non-zero value. *)
Theorem tcp_open_abort_iff :
  forall (fuel : nat) (h : URLContext) (uri : string) (fl : Z) (w : W)
         (o : outcome W),
    tcp_open os fuel h uri fl w = Some o ->
    (o_ret o = AVERROR_EXIT <-> aborted (o_hist o) = true)
    /\ faithful os w (o_hist o) (o_world o)
    /\ (o_ret o = AVERROR_EXIT <->
        exists i t wa wb,
          i <> 0
          /\ moment (EvInterrupt i :: t) (o_hist o)
          /\ replay os (resolved_list (o_hist o)) w t wa
          /\ url_interrupt_cb os wa = (i, wb)).
Proof.
  intros fuel h uri fl w o Hopen.
  pose proof (tcp_open_faithful _ _ _ _ _ _ _ Hopen) as Hf.
  assert (Hiff : o_ret o = AVERROR_EXIT <-> aborted (o_hist o) = true).
  { apply tcp_open_shape in Hopen
      as [(Hr & _ & Hh)|[(Hr & _ & (m & n & s & hn & cd & Hh))
                        |((_ & _ & _ & Hc) & _)]].
    - rewrite Hr, Hh. split; discriminate.
    - rewrite Hr, Hh. split; discriminate.
    - destruct Hc as [(Hr & _ & Ha)|[(Hr & _ & Ha)|[(Hr & _ & Ha)|(Hr & _ & Ha)]]];
        rewrite Hr, Ha; split; (reflexivity || discriminate). }
  split; [exact Hiff|]. split; [exact Hf|].
  rewrite Hiff, aborted_moment. split.
  - intros (i & t & Hi & Hm).
    destruct (replay_moment _ _ _ _ _ _ _ Hf Hm) as (wa & wb & Hr & Hp).
    inversion Hp; subst. now exists i, t, wa, wb.
  - intros (i & t & wa & wb & Hi & Hm & _). now exists i, t.
Qed.

(** X4: the value [tcp_open] returns is 0, AVERROR(EINVAL), AVERROR(EIO),
    AVERROR(ENOMEM) or AVERROR_EXIT, so never a positive one; it is
    AVERROR(EINVAL) exactly when the scheme or the port av_url_split
    reports fails the test of lines 52-53, and exactly then no call is
    made on the world (av_url_split and strcmp only compute on their
    arguments): the history is empty and the world is returned as it was
    passed in. *)
Theorem tcp_open_result_values :
  forall (fuel : nat) (h : URLContext) (uri : string) (fl : Z) (w : W)
         (o : outcome W),
    tcp_open os fuel h uri fl w = Some o ->
    (o_ret o = 0 \/ o_ret o = AVERROR EINVAL \/ o_ret o = AVERROR EIO
     \/ o_ret o = AVERROR ENOMEM \/ o_ret o = AVERROR_EXIT)
    /\ o_ret o <= 0
    /\ (o_ret o = AVERROR EINVAL <-> o_hist o = [])
    /\ (o_ret o = AVERROR EINVAL <->
        (proto (av_url_split os 1024 0 1024 1024 uri) <> "tcp"%string
         \/ port (av_url_split os 1024 0 1024 1024 uri) <= 0
         \/ 65536 <= port (av_url_split os 1024 0 1024 1024 uri)))
    /\ (o_ret o = AVERROR EINVAL -> o_world o = w)
    /\ faithful os w (o_hist o) (o_world o).
Proof.
  intros fuel h uri fl w o Hopen.
  pose proof (tcp_open_faithful _ _ _ _ _ _ _ Hopen) as Hf.
  pose proof (tcp_open_checked _ _ _ _ _ _ Hopen) as Hck.
  assert (Hv : (o_ret o = 0 \/ o_ret o = AVERROR EINVAL \/ o_ret o = AVERROR EIO
                \/ o_ret o = AVERROR ENOMEM \/ o_ret o = AVERROR_EXIT)
               /\ o_ret o <= 0
               /\ (o_ret o = AVERROR EINVAL <-> o_hist o = [])).
  { apply tcp_open_shape in Hopen
      as [(Hr & _ & Hh)|[(Hr & _ & (m & n & s & hn & cd & Hh))
                        |((_ & (t & Hh) & _ & Hc) & _)]].
    - rewrite Hr, Hh. split; [tauto|]. split; [discriminate|]. tauto.
    - rewrite Hr, Hh. split; [tauto|]. split; [discriminate|].
      split; discriminate.
    - rewrite Hh.
      destruct Hc as [(Hr & _)|[(Hr & _)|[(Hr & _)|(Hr & _)]]]; rewrite Hr;
        (split; [tauto|]); (split; [discriminate|]); split; discriminate. }
  destruct Hv as (Hv1 & Hv2 & Hv3).
  split; [exact Hv1|]. split; [exact Hv2|]. split; [exact Hv3|].
  split; [rewrite Hv3; exact Hck|]. split; [|exact Hf].
  intros He. apply Hv3 in He. unfold faithful in Hf. rewrite He in Hf.
  inversion Hf. reflexivity.
Qed.

(** X5: av_malloc is called at most once in a run of [tcp_open]: once,
    successfully, when the result is 0; once, failing, when the result is
    AVERROR(ENOMEM); and not at all for any other result. *)
Theorem tcp_open_alloc :
  forall (fuel : nat) (h : URLContext) (uri : string) (fl : Z) (w : W)
         (o : outcome W),
    tcp_open os fuel h uri fl w = Some o ->
    mallocs (o_hist o) =
    (if o_ret o =? 0 then [true]
     else if o_ret o =? AVERROR ENOMEM then [false]
     else []).
Proof.
  intros fuel h uri fl w o Hopen.
  apply tcp_open_shape in Hopen
    as [(Hr & _ & Hh)|[(Hr & _ & (m & n & s & hn & cd & Hh))
                      |((_ & _ & _ & Hc) & _)]].
  - rewrite Hr, Hh. reflexivity.
  - rewrite Hr, Hh. reflexivity.
  - destruct Hc as [(Hr & Hm & _)|[(Hr & Hm & _)|[(Hr & Hm & _)|(Hr & Hm & _)]]];
      rewrite Hr, Hm; reflexivity.
Qed.

(** X6: the address list is released exactly once, by the last call of the
    run, on every return of [tcp_open] that follows a successful
    resolution, and freeaddrinfo is never called otherwise. *)
Theorem tcp_open_freeaddrinfo_once :
  forall (fuel : nat) (h : URLContext) (uri : string) (fl : Z) (w : W)
         (o : outcome W),
    tcp_open os fuel h uri fl w = Some o ->
    count_free (o_hist o) = (if resolved (o_hist o) then 1%nat else 0%nat)
    /\ (resolved (o_hist o) = true -> exists t, o_hist o = EvFreeaddrinfo :: t).
Proof.
  intros fuel h uri fl w o Hopen.
  apply tcp_open_shape in Hopen
    as [(_ & _ & Hh)|[(_ & _ & (m & n & s & hn & cd & Hh))
                     |((Hf & Ht & Hr & _) & _)]].
  - rewrite Hh. split; [reflexivity|discriminate].
  - rewrite Hh. split; [reflexivity|discriminate].
  - rewrite Hr, Hf. split; [reflexivity|]. intros _. exact Ht.
Qed.

(** X7: in every run of [tcp_open], each poll asks for write-readiness
    with a timeout of 100 ms and comes right after a call of the interrupt
    predicate that returned 0; and each read of the pending socket error
    comes right after a poll on the same descriptor that reported
    readiness. *)
Theorem tcp_open_poll_protocol :
  forall (fuel : nat) (h : URLContext) (uri : string) (fl : Z) (w : W)
         (o : outcome W),
    tcp_open os fuel h uri fl w = Some o ->
    (forall s ev tm r t,
        moment (EvPoll s ev tm r :: t) (o_hist o) ->
        ev = POLLOUT /\ tm = 100 /\ exists t', t = EvInterrupt 0 :: t')
    /\ (forall s v t,
          moment (EvGetsockopt s v :: t) (o_hist o) ->
          exists r t', 0 < r /\ t = EvPoll s POLLOUT 100 r :: t').
Proof.
  intros fuel h uri fl w o Hopen.
  apply tcp_open_shape in Hopen
    as [(_ & _ & Hh)|[(_ & _ & (m & n & s & hn & cd & Hh))
                     |(_ & _ & _ & Hp & _)]].
  - rewrite Hh. split; intros; exfalso;
      match goal with H : moment _ [] |- _ =>
        apply moment_nil_inv in H; discriminate H end.
  - rewrite Hh. split; intros; exfalso;
      match goal with H : moment _ _ |- _ =>
        apply moment_cons_inv in H as [E|H]; [discriminate E|];
        apply moment_cons_inv in H as [E|H]; [discriminate E|];
        apply moment_nil_inv in H; discriminate H end.
  - exact Hp.
Qed.

(** X9: [tcp_open] never closes a descriptor twice, nor one it did not
    create: at every close, the descriptor is among those created by an
    earlier socket or accept call and not closed since. *)
Theorem tcp_open_closes_open_descriptors :
  forall (fuel : nat) (h : URLContext) (uri : string) (fl : Z) (w : W)
         (o : outcome W),
    tcp_open os fuel h uri fl w = Some o ->
    forall s t,
      moment (EvClose s :: t) (o_hist o) -> In s (open_fds (rev t)).
Proof.
  intros fuel h uri fl w o Hopen s t Hm.
  rewrite open_after_rev.
  apply tcp_open_shape in Hopen
    as [(_ & _ & Hh)|[(_ & _ & (m & n & s' & hn & cd & Hh))
                     |(_ & _ & Hc & _)]].
  - rewrite Hh in Hm. apply moment_nil_inv in Hm. discriminate.
  - rewrite Hh in Hm.
    apply moment_cons_inv in Hm as [E|Hm]; [discriminate E|].
    apply moment_cons_inv in Hm as [E|Hm]; [discriminate E|].
    apply moment_nil_inv in Hm. discriminate.
  - apply Hc. exact Hm.
Qed.

(** X10: a successful [tcp_open] followed by [tcp_close] on the context
    it filled in returns 0 and leaves no descriptor open: [tcp_close]
    applies closesocket to the descriptor the context holds (the one
    [tcp_get_file_handle] reports) on the world [tcp_open] left, then
    av_free, and returns the world these two calls leave; the history of
    both functions records the calls as they were made on the world. *)
Theorem tcp_open_then_close :
  forall (fuel : nat) (h : URLContext) (uri : string) (fl : Z) (w : W)
         (o : outcome W),
    tcp_open os fuel h uri fl w = Some o ->
    o_ret o = 0 ->
    exists s,
      tcp_get_file_handle (o_h o) = Some s
      /\ tcp_close os (o_h o) (o_world o)
         = Some (0, av_free os (closesocket os s (o_world o)),
                 [EvClose s; EvFree])
      /\ open_fds (rev (o_hist o) ++ [EvClose s; EvFree]) = []
      /\ faithful os w (EvFree :: EvClose s :: o_hist o)
           (av_free os (closesocket os s (o_world o))).
Proof.
  intros fuel h uri fl w o Hopen Hret.
  pose proof (tcp_open_faithful _ _ _ _ _ _ _ Hopen) as Hf.
  apply tcp_open_shape in Hopen
    as [(Hr & _)|[(Hr & _)|(_ & Hc & _)]];
    try (rewrite Hr in Hret; discriminate Hret).
  destruct Hc as [(Hne & _)|(s & _ & Hh & _ & Ho)]; [contradiction|].
  exists s. rewrite Hh. cbn [tcp_get_file_handle tcp_close priv_data fd].
  split; [reflexivity|]. split; [reflexivity|]. split.
  - unfold open_fds. rewrite fold_left_app.
    change (fold_left track_fd (rev (o_hist o)) []) with (open_fds (rev (o_hist o))).
    rewrite open_after_rev, Ho. cbn [fold_left track_fd].
    destruct (s >=? 0); cbn [remove_fd]; [now rewrite Z.eqb_refl|reflexivity].
  - unfold faithful in *. cbn [resolved_list].
    eapply replay_cons; [|apply pf_free].
    eapply replay_cons; [exact Hf|apply pf_close].
Qed.

(** X11: when the URI does not select listen mode, [tcp_open] never calls
    bind, listen or accept. *)
Theorem tcp_open_connect_mode :
  forall (fuel : nat) (h : URLContext) (uri : string) (fl : Z) (w : W)
         (o : outcome W),
    tcp_listen_socket uri = 0 ->
    tcp_open os fuel h uri fl w = Some o ->
    listen_calls (o_hist o) = false.
Proof.
  intros fuel h uri fl w o Hl Hopen.
  apply tcp_open_shape in Hopen
    as [(_ & _ & Hh)|[(_ & _ & (m & n & s & hn & cd & Hh))
                     |(_ & _ & _ & _ & Hc & _)]].
  - rewrite Hh. reflexivity.
  - rewrite Hh. reflexivity.
  - apply Hc. exact Hl.
Qed.

(** X13: in every run of [tcp_open], each accept is made on a descriptor
    that socket returned for a candidate, right after the bind to that
    candidate's address and the listen with a backlog of one on the same
    descriptor; and the next call after the accept is the close of that
    listening descriptor, whether the accept succeeded or not. *)
Theorem tcp_open_accept_protocol :
  forall (fuel : nat) (h : URLContext) (uri : string) (fl : Z) (w : W)
         (o : outcome W),
    tcp_open os fuel h uri fl w = Some o ->
    forall s s1 t,
      moment (EvAccept s s1 :: t) (o_hist o) ->
      0 <= s
      /\ (exists cur r lr t',
            t = EvListen s 1 lr
                  :: EvBind s (ai_addr cur) (ai_addrlen cur) r
                  :: EvSocket cur s :: t')
      /\ moment (EvClose s :: EvAccept s s1 :: t) (o_hist o).
Proof.
  intros fuel h uri fl w o Hopen s s1 t Hm.
  apply tcp_open_shape in Hopen
    as [(_ & _ & Hh)|[(_ & _ & (m & n & s' & hn & cd & Hh))
                     |(_ & _ & _ & _ & _ & Ha & _)]].
  - rewrite Hh in Hm. apply moment_nil_inv in Hm. discriminate.
  - rewrite Hh in Hm.
    apply moment_cons_inv in Hm as [E|Hm]; [discriminate E|].
    apply moment_cons_inv in Hm as [E|Hm]; [discriminate E|].
    apply moment_nil_inv in Hm. discriminate.
  - apply Ha. exact Hm.
Qed.

(** X14: an asserted interrupt check ends the run at once.  (1) At the
    head of a turn of the wait loop, when url_interrupt_cb returns a
    non-zero value the run returns AVERROR_EXIT after closing the
    descriptor in hand and releasing the address list, and calls nothing
    else; (2) the same holds at the check that follows a failed call with
    an EINTR reading: the connect is not issued again; (3) in every run of
    [tcp_open] the history records the calls as they were made on the
    world, at most one call of the interrupt predicate returned a non-zero
    value, and after it the only calls are that close and that release: no
    poll, no connect and no socket call follows. *)
Theorem tcp_open_abort_is_immediate :
  (forall listen_socket host prt ai h (c : config W) (i : Z) (w1 : W)
          (fuel : nat),
      pc c = L_wait ->
      url_interrupt_cb os (world c) = (i, w1) ->
      i <> 0 ->
      run os listen_socket host prt ai h (2 + fuel) c =
      Some (mk_outcome AVERROR_EXIT h
              (freeaddrinfo os ai
                 (if l_fd c >=? 0 then closesocket os (l_fd c) w1 else w1))
              (abort_tail (l_fd c) ++ EvInterrupt i :: hist c)))
  /\ (forall listen_socket host prt ai h (c : config W) (i : Z) (w2 : W)
             (fuel : nat),
        pc c = L_nonblock ->
        l_ret c < 0 ->
        ff_neterrno os (ff_socket_nonblock os (l_fd c) 1 (world c))
          = AVERROR EINTR ->
        url_interrupt_cb os (ff_socket_nonblock os (l_fd c) 1 (world c))
          = (i, w2) ->
        i <> 0 ->
        run os listen_socket host prt ai h (2 + fuel) c =
        Some (mk_outcome AVERROR_EXIT h
                (freeaddrinfo os ai
                   (if l_fd c >=? 0 then closesocket os (l_fd c) w2 else w2))
                (abort_tail (l_fd c) ++ EvInterrupt i
                   :: EvNeterrno (AVERROR EINTR)
                   :: EvNonblock (l_fd c) 1 :: hist c)))
  /\ (forall (fuel : nat) (h : URLContext) (uri : string) (fl : Z) (w : W)
             (o : outcome W),
        tcp_open os fuel h uri fl w = Some o ->
        faithful os w (o_hist o) (o_world o)
        /\ (aborted (o_hist o) = true ->
            exists i t,
              i <> 0 /\ aborted t = false
              /\ (o_hist o = EvFreeaddrinfo :: EvInterrupt i :: t
                  \/ exists s,
                       o_hist o = EvFreeaddrinfo :: EvClose s :: EvInterrupt i :: t))).
Proof.
  split; [|split].
  - intros. eapply wait_abort; eassumption.
  - intros. eapply eintr_abort; eassumption.
  - intros fuel h uri fl w o Hopen.
    split; [eapply tcp_open_faithful; exact Hopen|]. intros Hab.
    apply tcp_open_shape in Hopen
      as [(_ & _ & Hh)|[(_ & _ & (m & n & s' & hn & cd & Hh))
                       |(_ & _ & _ & _ & _ & _ & Ha)]].
    + rewrite Hh in Hab. discriminate.
    + rewrite Hh in Hab. discriminate.
    + destruct Ha as [Ha|Ha]; [rewrite Ha in Hab; discriminate|exact Ha].
Qed.

(** X12: on a handle whose non-blocking flag is not set, when the
    readiness wait for reading fails (a negative result) [tcp_read]
    returns that result at once, and when the readiness wait for writing
    fails [tcp_write] does, each whatever the other wait would do: recv,
    resp. send, is not called, the buffer is left as it was and the world
    is the one the wait left. *)
Theorem tcp_io_wait_failure :
  forall (h : URLContext) (s : TCPContext) (buf : list Byte.byte) (size : Z)
         (w : W),
    priv_data h = Some s ->
    Z.land (flags h) AVIO_FLAG_NONBLOCK = 0 ->
    (forall r1 w1,
        ff_network_wait_fd os (fd s) 0 w = (r1, w1) -> r1 < 0 ->
        tcp_read os h buf size w
          = Some (mk_io_result r1 buf w1 [EvWait (fd s) 0 r1]))
    /\ (forall r2 w2,
          ff_network_wait_fd os (fd s) 1 w = (r2, w2) -> r2 < 0 ->
          tcp_write os h buf size w
            = Some (mk_io_result r2 buf w2 [EvWait (fd s) 1 r2])).
Proof.
  intros h s buf size w Hs Hf.
  unfold tcp_read, tcp_write. rewrite Hs, Hf. cbn [Z.eqb].
  split.
  - intros r1 w1 H1 Hr1. rewrite H1.
    destruct (Z.ltb_spec r1 0); [reflexivity|lia].
  - intros r2 w2 H2 Hr2. rewrite H2.
    destruct (Z.ltb_spec r2 0); [reflexivity|lia].
Qed.

End OpenShows.

(** * Runs in the scripted environment *)

Module Scenarios.

Import Scripted.

(** C1: with av_malloc() failing after a successful connect, [tcp_open]
    returns AVERROR(ENOMEM), hands no context to the caller, and the
    descriptor 3 it created is still open: it is never closed. *)
Theorem tcp_open_enomem_leaves_descriptor_open :
  ret_of (tcp_open os 20 h0 "tcp://localhost:5000" 0 w_enomem)
    = Some (AVERROR ENOMEM)
  /\ option_map (fun o => priv_data (o_h o))
       (tcp_open os 20 h0 "tcp://localhost:5000" 0 w_enomem) = Some None
  /\ open_fds (trace_of (tcp_open os 20 h0 "tcp://localhost:5000" 0 w_enomem))
       = [3]
  /\ ~ In (EvClose 3)
         (trace_of (tcp_open os 20 h0 "tcp://localhost:5000" 0 w_enomem)).
Proof.
  repeat split; try (vm_compute; reflexivity).
  vm_compute. intros H. repeat (destruct H as [H|H]; [discriminate H|]).
  exact H.
Qed.

(** C2: in connect mode, the first call on the new descriptor 3 is
    connect(); ff_socket_nonblock(3, 1) comes only after it. *)
Theorem tcp_open_connects_before_nonblock :
  tl (trace_of (tcp_open os 20 h0 "tcp://localhost:5000" 0 (w_in_progress None)))
  = [EvSocket addr4 3;
     EvConnect 3 (ai_addr addr4) (ai_addrlen addr4) (-1);
     EvNonblock 3 1;
     EvNeterrno (AVERROR EINPROGRESS);
     EvInterrupt 0;
     EvPoll 3 POLLOUT 100 1;
     EvGetsockopt 3 (Some 0);
     EvMalloc true;
     EvFreeaddrinfo].
Proof. vm_compute. reflexivity. Qed.

(** C3, counterexample: the interrupt predicate is not asserted at the
    checkpoint of the first turn of the wait loop, is asserted while the
    poll slice of that turn runs and stays asserted; the slice reports the
    socket writable, and [tcp_open] returns 0, not AVERROR_EXIT. *)
Lemma wait_abort_counterexample :
  exists c o,
    steps os 0 "localhost" 5000 [addr4; addr6] h0 3
      (mk_config L_restart (-1) 0 addr4 [addr6]
         (snd (answer (w_in_progress (Some 4%nat))))
         [EvGetaddrinfo "localhost" "5000" tcp_hints (GaiOk addr4 [addr6])])
      = inl c
    /\ pc c = L_wait
    /\ fst (url_interrupt_cb os (world c)) = 0
    /\ fst (url_interrupt_cb os
              (snd (poll os (l_fd c) POLLOUT 100 (world c)))) = 1
    /\ (forall w, abort_at w = Some 4%nat -> (4 <= clock w)%nat ->
                  fst (url_interrupt_cb os w) = 1)
    /\ run os 0 "localhost" 5000 [addr4; addr6] h0 3 c = Some o
    /\ tcp_open os 6 h0 "tcp://localhost:5000" 0 (w_in_progress (Some 4%nat))
         = Some o
    /\ o_ret o = 0
    /\ o_ret o <> AVERROR_EXIT.
Proof.
  do 2 eexists.
  split; [vm_compute; reflexivity|].
  split; [reflexivity|].
  split; [reflexivity|].
  split; [reflexivity|].
  split.
  { intros w Hab Hclk. cbn [url_interrupt_cb os fst]. unfold interrupted.
    rewrite Hab. apply Nat.leb_le in Hclk. now rewrite Hclk. }
  split; [vm_compute; reflexivity|].
  split; [vm_compute; reflexivity|].
  split; [reflexivity|discriminate].
Qed.

(** Witness of [wait_loop_abort]: the predicate asserted at the
    checkpoint (tick 3), and asserted during a slice that times out. *)
Lemma wait_loop_abort_witness :
  (exists o,
      run os 0 "localhost" 5000 [addr4; addr6] h0 2
        (c_waiting (mk_sworld [] 0 3 (Some 3%nat) [addr4; addr6])) = Some o
      /\ o_ret o = AVERROR_EXIT
      /\ o_h o = h0
      /\ o_hist o = [EvFreeaddrinfo; EvClose 3; EvInterrupt 1])
  /\ (exists o,
      run os 0 "localhost" 5000 [addr4; addr6] h0 3
        (c_waiting (mk_sworld [(0, 0)] 0 3 (Some 4%nat) [addr4; addr6])) = Some o
      /\ o_ret o = AVERROR_EXIT
      /\ o_h o = h0
      /\ o_hist o = [EvFreeaddrinfo; EvClose 3; EvInterrupt 1;
                     EvPoll 3 POLLOUT 100 0; EvInterrupt 0]).
Proof.
  split.
  - refine (proj1 (wait_loop_abort os 0 "localhost" 5000 [addr4; addr6] h0
                     (c_waiting (mk_sworld [] 0 3 (Some 3%nat) [addr4; addr6]))
                     eq_refl)
              1 _ 0%nat eq_refl _).
    discriminate.
  - refine (proj2 (wait_loop_abort os 0 "localhost" 5000 [addr4; addr6] h0
                     (c_waiting (mk_sworld [(0, 0)] 0 3 (Some 4%nat) [addr4; addr6]))
                     eq_refl)
              _ 0 _ 1 _ 0%nat eq_refl eq_refl _ eq_refl _).
    + discriminate.
    + discriminate.
Defined.

(** Witness of [tcp_open_candidate_order]: both candidates fail, in the
    resolver's order, and the result is AVERROR(EIO). *)
Lemma tcp_open_candidate_order_witness :
  exists o,
    tcp_open os 20 h0 "tcp://localhost:5000" 0 w_refused = Some o
    /\ o_ret o = AVERROR EIO
    /\ sockets (o_hist o) = [addr4; addr6]
    /\ (forall cur s t,
          moment (EvSocket cur s :: t) (o_hist o) -> socket_cause t)
    /\ faithful os w_refused (o_hist o) (o_world o).
Proof.
  eexists. split; [vm_compute; reflexivity|]. split; [reflexivity|].
  destruct (tcp_open_candidate_order os 20 h0 "tcp://localhost:5000" 0
              w_refused (snd (answer w_refused)) addr4 [addr6] _
              ltac:(vm_compute; reflexivity) ltac:(vm_compute; reflexivity))
    as (_ & Hcause & Hall & Hf).
  split; [exact (proj1 (Hall eq_refl))|]. split; [exact Hcause|exact Hf].
Defined.

(** C5, counterexample: in listen mode (1) the bind of the first
    candidate fails; [tcp_open] goes on to the second candidate, binds and
    accepts there, and returns 0 with the accepted descriptor 8 in a new
    context; (2) no socket can be created for the first candidate;
    [tcp_open] binds, listens and accepts on the second one and returns
    0. *)
Lemma listen_fallback_counterexample :
  (exists o,
      tcp_open os 20 h0 "tcp://localhost:5000?listen=1" 0 w_listen_bind_fails
        = Some o
      /\ tcp_listen_socket "tcp://localhost:5000?listen=1" = 1
      /\ o_ret o = 0
      /\ priv_data (o_h o) = Some (mk_TCPContext 8)
      /\ sockets (o_hist o) = [addr4; addr6]
      /\ In (EvBind 3 (ai_addr addr4) (ai_addrlen addr4) (-1)) (o_hist o)
      /\ In (EvBind 4 (ai_addr addr6) (ai_addrlen addr6) 0) (o_hist o)
      /\ In (EvAccept 4 8) (o_hist o))
  /\ (exists o,
      tcp_open os 20 h0 "tcp://localhost:5000?listen=1" 0 w_listen_no_ipv6
        = Some o
      /\ o_ret o = 0
      /\ priv_data (o_h o) = Some (mk_TCPContext 4)
      /\ sockets (o_hist o) = [addr6; addr4]
      /\ tl (rev (o_hist o))
         = [EvSocket addr6 (-1);
            EvSocket addr4 3;
            EvBind 3 (ai_addr addr4) (ai_addrlen addr4) 0;
            EvListen 3 1 0;
            EvAccept 3 4;
            EvClose 3;
            EvNonblock 4 1;
            EvMalloc true;
            EvFreeaddrinfo]).
Proof.
  split.
  - eexists. split; [vm_compute; reflexivity|].
    repeat split; try reflexivity; cbn [o_hist]; simpl; tauto.
  - eexists. split; [vm_compute; reflexivity|].
    repeat split; reflexivity.
Qed.

(** In listen mode with the bind succeeding and accept() failing,
    [tcp_open] returns 0 and stores the descriptor -1 in the new context:
    the result of accept() is not tested. *)
Example listen_accept_failure_returns_success :
  exists o,
    tcp_open os 20 h0 "tcp://localhost:5000?listen=1" 0 w_listen_accept_fails
      = Some o
    /\ In (EvAccept 3 (-1)) (o_hist o)
    /\ o_ret o = 0
    /\ priv_data (o_h o) = Some (mk_TCPContext (-1)).
Proof.
  eexists. split; [vm_compute; reflexivity|].
  repeat split; try reflexivity. cbn [o_hist]. simpl. tauto.
Qed.

(** Witness of [listen_candidate_failure]: the bind fails on the only
    candidate, and on the first of two. *)
Lemma listen_candidate_failure_witness :
  (exists n, forall fuel, exists o,
      run os 1 "localhost" 5000 [addr4] h0 (n + fuel)
        (mk_config L_restart (-1) 0 addr4 [] w_listen_last_bind_fails [])
        = Some o
      /\ o_ret o = AVERROR EIO
      /\ o_h o = h0)
  /\ (exists n c',
      steps os 1 "localhost" 5000 [addr4; addr6] h0 n
        (mk_config L_restart (-1) 0 addr4 [addr6] w_listen_last_bind_fails [])
        = inl c'
      /\ pc c' = L_restart /\ cur_ai c' = addr6 /\ ai_next c' = []).
Proof.
  split.
  - refine (proj2 (listen_candidate_failure os 1 "localhost" 5000 [addr4] h0
                     (mk_config L_restart (-1) 0 addr4 []
                        w_listen_last_bind_fails [])
                     3 _ _ eq_refl eq_refl _) eq_refl).
    + discriminate.
    + right. do 6 eexists. split; [lia|].
      split; [reflexivity|]. split; [lia|].
      split; [reflexivity|]. split; [reflexivity|].
      repeat split; discriminate.
  - refine (proj1 (listen_candidate_failure os 1 "localhost" 5000
                     [addr4; addr6] h0
                     (mk_config L_restart (-1) 0 addr4 [addr6]
                        w_listen_last_bind_fails [])
                     3 _ _ eq_refl eq_refl _) addr6 [] eq_refl).
    + discriminate.
    + right. do 6 eexists. split; [lia|].
      split; [reflexivity|]. split; [lia|].
      split; [reflexivity|]. split; [reflexivity|].
      repeat split; discriminate.
Defined.

(** Witness of [tcp_open_invalid_argument]: a scheme that is not tcp, a
    port above 65535, port 0. *)
Lemma tcp_open_invalid_argument_witness :
  tcp_open os 20 h0 "udp://host:1234" 0 (world_of [] None)
    = Some (mk_outcome (AVERROR EINVAL) h0 (world_of [] None) [])
  /\ tcp_open os 20 h0 "tcp://host:70000" 0 (world_of [] None)
    = Some (mk_outcome (AVERROR EINVAL) h0 (world_of [] None) [])
  /\ tcp_open os 20 h0 "tcp://host:0" 0 (world_of [] None)
    = Some (mk_outcome (AVERROR EINVAL) h0 (world_of [] None) []).
Proof.
  split; [|split].
  - apply (tcp_open_invalid_argument os 20 h0 "udp://host:1234" 0).
    left. discriminate.
  - apply (tcp_open_invalid_argument os 20 h0 "tcp://host:70000" 0).
    right. right. vm_compute. discriminate.
  - apply (tcp_open_invalid_argument os 20 h0 "tcp://host:0" 0).
    right. left. vm_compute. discriminate.
Defined.

(** C9, counterexample: a failed resolution and an exhausted candidate
    list give the caller the same error value. *)
Lemma resolution_failure_counterexample :
  ret_of (tcp_open os 20 h0 "tcp://localhost:5000" 0 w_unresolved)
    = Some (AVERROR EIO)
  /\ ret_of (tcp_open os 20 h0 "tcp://localhost:5000" 0 w_refused)
    = Some (AVERROR EIO)
  /\ sockets (rev (trace_of (tcp_open os 20 h0 "tcp://localhost:5000" 0 w_unresolved)))
    = []
  /\ sockets (rev (trace_of (tcp_open os 20 h0 "tcp://localhost:5000" 0 w_refused)))
    = [addr4; addr6]
  /\ ret_of (tcp_open os 20 h0 "tcp://localhost:5000" 0 w_unresolved)
    = ret_of (tcp_open os 20 h0 "tcp://localhost:5000" 0 w_refused).
Proof. repeat split; vm_compute; reflexivity. Qed.

(** Witness of [tcp_open_resolution_failure]. *)
Lemma tcp_open_resolution_failure_witness :
  exists o,
    tcp_open os 20 h0 "tcp://localhost:5000" 0 w_unresolved = Some o
    /\ o_ret o = AVERROR EIO
    /\ o_h o = h0
    /\ sockets (o_hist o) = []
    /\ (forall s addr len r, ~ In (EvConnect s addr len r) (o_hist o))
    /\ exists msg node service hints,
         o_hist o = [EvLog msg; EvGetaddrinfo node service hints (GaiError (-2))].
Proof.
  refine (tcp_open_resolution_failure os 20 h0 "tcp://localhost:5000" 0
            w_unresolved _ (-2) eq_refl _ _).
  - vm_compute. split; reflexivity.
  - vm_compute. reflexivity.
Defined.


(** Witness of [tcp_read_write_result]: on a blocking handle on
    descriptor 3 the wait succeeds, recv returns 5 bytes and send takes 2;
    on a non-blocking handle recv fails with EAGAIN and the caller gets
    AVERROR(EAGAIN). *)
Lemma tcp_read_write_result_witness :
  (exists v,
      translated os 5 (mk_sworld [] 0 2 None [addr4; addr6]) v
      /\ tcp_read os h_blocking [] 16 (world_of [(0, 0); (5, 0)] None)
         = Some (mk_io_result v [] (mk_sworld [] 0 2 None [addr4; addr6])
                   [EvWait 3 0 0; EvRecv 3 16 5]))
  /\ (exists v,
      translated os 2 (mk_sworld [] 0 2 None [addr4; addr6]) v
      /\ tcp_write os h_blocking [Byte.x68; Byte.x69] 2
           (world_of [(0, 0); (2, 0)] None)
         = Some (mk_io_result v [Byte.x68; Byte.x69]
                   (mk_sworld [] 0 2 None [addr4; addr6])
                   [EvWait 3 1 0; EvSend 3 [Byte.x68; Byte.x69] 2 2]))
  /\ (exists v,
      v = AVERROR EAGAIN
      /\ tcp_read os (mk_URLContext AVIO_FLAG_NONBLOCK 1 (Some (mk_TCPContext 3)))
           [] 16 (world_of [(-1, EAGAIN)] None)
         = Some (mk_io_result v [] (mk_sworld [] EAGAIN 1 None [addr4; addr6])
                   [EvRecv 3 16 (-1)])).
Proof.
  split; [|split].
  - refine (proj1 (proj2 (tcp_read_write_result os h_blocking (mk_TCPContext 3)
                            [] 16 (world_of [(0, 0); (5, 0)] None) eq_refl)
                     eq_refl)
              0 _ 5 [] _ eq_refl _ eq_refl).
    lia.
  - refine (proj2 (proj2 (tcp_read_write_result os h_blocking (mk_TCPContext 3)
                            [Byte.x68; Byte.x69] 2
                            (world_of [(0, 0); (2, 0)] None) eq_refl)
                     eq_refl)
              0 _ 2 _ eq_refl _ eq_refl).
    lia.
  - destruct (proj1 (proj1 (tcp_read_write_result os
                              (mk_URLContext AVIO_FLAG_NONBLOCK 1
                                 (Some (mk_TCPContext 3)))
                              (mk_TCPContext 3) [] 16
                              (world_of [(-1, EAGAIN)] None) eq_refl)
                       ltac:(discriminate))
                (-1) [] (mk_sworld [] EAGAIN 1 None [addr4; addr6]) eq_refl)
      as (v & Hv & Hread).
    exists v. split; [|exact Hread].
    apply (proj1 Hv). lia.
Defined.

(** Witness of [tcp_listen_socket_any_value]: listen=0 sets the flag, and
    the run binds, listens and accepts. *)
Lemma tcp_listen_socket_any_value_witness :
  tcp_listen_socket "tcp://localhost:5000?listen=0" = 1
  /\ tcp_listen_socket "tcp://localhost:5000?listen=1" = 1
  /\ tl (trace_of (tcp_open os 20 h0 "tcp://localhost:5000?listen=0" 0 w_listen_ok))
     = [EvSocket addr4 3;
        EvBind 3 (ai_addr addr4) (ai_addrlen addr4) 0;
        EvListen 3 1 0;
        EvAccept 3 4;
        EvClose 3;
        EvNonblock 4 1;
        EvMalloc true;
        EvFreeaddrinfo].
Proof.
  split; [|split].
  - exact (proj2 (tcp_listen_socket_any_value "tcp://localhost:5000" eq_refl) "0"%string).
  - exact (proj2 (tcp_listen_socket_any_value "tcp://localhost:5000" eq_refl) "1"%string).
  - vm_compute. reflexivity.
Defined.

End Scenarios.

(** * More runs in the scripted environment *)

Module MoreScenarios.

Import Scripted.

(** Witness of [tcp_open_failure_closes_descriptor]: both candidates fail
    and the descriptor of the first one was closed. *)
Lemma tcp_open_failure_closes_descriptor_witness :
  exists o,
    tcp_open os 20 h0 "tcp://localhost:5000" 0 w_refused = Some o
    /\ o_ret o = AVERROR EIO
    /\ In (EvSocket addr4 3) (o_hist o)
    /\ open_fds (rev (o_hist o)) = []
    /\ faithful os w_refused (o_hist o) (o_world o).
Proof.
  eexists. split; [vm_compute; reflexivity|]. split; [reflexivity|].
  split; [cbn [o_hist]; simpl; tauto|].
  refine (tcp_open_failure_closes_descriptor os 20 h0 "tcp://localhost:5000"
            0 w_refused _ _ _ _).
  - vm_compute. reflexivity.
  - discriminate.
  - discriminate.
Defined.

(** Witness of [tcp_open_context]: a failing run keeps the context, a
    successful one stores descriptor 3. *)
Lemma tcp_open_context_witness :
  (exists o,
      tcp_open os 20 h0 "tcp://localhost:5000" 0 w_refused = Some o
      /\ o_h o = h0)
  /\ (exists o,
      tcp_open os 20 h0 "tcp://localhost:5000" 0 (w_in_progress None) = Some o
      /\ exists s,
           o_h o = mk_URLContext (flags h0) 1 (Some (mk_TCPContext s))
           /\ tcp_get_file_handle (o_h o) = Some s
           /\ last_created (o_hist o) = Some s
           /\ open_fds (rev (o_hist o)) = (if s >=? 0 then [s] else [])).
Proof.
  split.
  - eexists. split; [vm_compute; reflexivity|].
    refine (proj1 (tcp_open_context os 20 h0 "tcp://localhost:5000" 0
                     w_refused _ _) _).
    + vm_compute. reflexivity.
    + discriminate.
  - eexists. split; [vm_compute; reflexivity|].
    refine (proj2 (tcp_open_context os 20 h0 "tcp://localhost:5000" 0
                     (w_in_progress None) _ _) _).
    + vm_compute. reflexivity.
    + reflexivity.
Defined.

(** Witness of [tcp_open_abort_iff]: the predicate is asserted from tick 3
    on, the first checkpoint of the wait loop sees it. *)
Lemma tcp_open_abort_iff_witness :
  exists o,
    tcp_open os 20 h0 "tcp://localhost:5000" 0 (w_in_progress (Some 3%nat))
      = Some o
    /\ o_ret o = AVERROR_EXIT
    /\ aborted (o_hist o) = true
    /\ faithful os (w_in_progress (Some 3%nat)) (o_hist o) (o_world o)
    /\ exists i t wa wb,
         i <> 0
         /\ moment (EvInterrupt i :: t) (o_hist o)
         /\ replay os (resolved_list (o_hist o)) (w_in_progress (Some 3%nat)) t wa
         /\ url_interrupt_cb os wa = (i, wb).
Proof.
  eexists. split; [vm_compute; reflexivity|]. split; [reflexivity|].
  destruct (tcp_open_abort_iff os 20 h0 "tcp://localhost:5000" 0
              (w_in_progress (Some 3%nat)) _ ltac:(vm_compute; reflexivity))
    as (Ha & Hf & Hc).
  split; [exact (proj1 Ha eq_refl)|]. split; [exact Hf|].
  exact (proj1 Hc eq_refl).
Defined.

(** Witness of [tcp_open_result_values]: a port above 65535. *)
Lemma tcp_open_result_values_witness :
  exists o,
    tcp_open os 20 h0 "tcp://host:70000" 0 w_refused = Some o
    /\ o_ret o = AVERROR EINVAL
    /\ o_ret o <= 0
    /\ o_hist o = []
    /\ o_world o = w_refused
    /\ (proto (av_url_split os 1024 0 1024 1024 "tcp://host:70000") <> "tcp"%string
        \/ port (av_url_split os 1024 0 1024 1024 "tcp://host:70000") <= 0
        \/ 65536 <= port (av_url_split os 1024 0 1024 1024 "tcp://host:70000")).
Proof.
  eexists. split; [vm_compute; reflexivity|]. split; [reflexivity|].
  destruct (tcp_open_result_values os 20 h0 "tcp://host:70000" 0 w_refused _
              ltac:(vm_compute; reflexivity)) as (_ & Hle & Hh & Hck & Hw & _).
  split; [exact Hle|]. split; [exact (proj1 Hh eq_refl)|].
  split; [exact (Hw eq_refl)|exact (proj1 Hck eq_refl)].
Defined.

(** Witness of [tcp_open_alloc]: the run in which av_malloc fails. *)
Lemma tcp_open_alloc_witness :
  exists o,
    tcp_open os 20 h0 "tcp://localhost:5000" 0 w_enomem = Some o
    /\ mallocs (o_hist o) =
       (if o_ret o =? 0 then [true]
        else if o_ret o =? AVERROR ENOMEM then [false]
        else []).
Proof.
  eexists. split; [vm_compute; reflexivity|].
  refine (tcp_open_alloc os 20 h0 "tcp://localhost:5000" 0 w_enomem _ _).
  vm_compute. reflexivity.
Defined.

(** Witness of [tcp_open_freeaddrinfo_once]. *)
Lemma tcp_open_freeaddrinfo_once_witness :
  exists o,
    tcp_open os 20 h0 "tcp://localhost:5000" 0 w_refused = Some o
    /\ count_free (o_hist o) = (if resolved (o_hist o) then 1%nat else 0%nat)
    /\ (resolved (o_hist o) = true -> exists t, o_hist o = EvFreeaddrinfo :: t).
Proof.
  eexists. split; [vm_compute; reflexivity|].
  refine (tcp_open_freeaddrinfo_once os 20 h0 "tcp://localhost:5000" 0
            w_refused _ _).
  vm_compute. reflexivity.
Defined.

(** Witness of [tcp_open_poll_protocol]: the run with one poll slice. *)
Lemma tcp_open_poll_protocol_witness :
  exists o,
    tcp_open os 20 h0 "tcp://localhost:5000" 0 (w_in_progress None) = Some o
    /\ In (EvPoll 3 POLLOUT 100 1) (o_hist o)
    /\ (forall s ev tm r t,
          moment (EvPoll s ev tm r :: t) (o_hist o) ->
          ev = POLLOUT /\ tm = 100 /\ exists t', t = EvInterrupt 0 :: t')
    /\ (forall s v t,
          moment (EvGetsockopt s v :: t) (o_hist o) ->
          exists r t', 0 < r /\ t = EvPoll s POLLOUT 100 r :: t').
Proof.
  eexists. split; [vm_compute; reflexivity|].
  split; [cbn [o_hist]; simpl; tauto|].
  refine (tcp_open_poll_protocol os 20 h0 "tcp://localhost:5000" 0
            (w_in_progress None) _ _).
  vm_compute. reflexivity.
Defined.

(** Witness of [wait_loop_unbounded]: in the silent environment a thousand
    blocks from the wait loop give no return. *)
Lemma wait_loop_unbounded_witness :
  run os_silent 0 "localhost" 5000 [addr4; addr6] h0 1000
    (c_waiting (world_of [] None)) = None.
Proof.
  refine (wait_loop_unbounded os_silent 0 "localhost"%string 5000
            [addr4; addr6] h0 _ _ 1000%nat (c_waiting (world_of [] None))
            eq_refl).
  - intros w. reflexivity.
  - intros s w. cbn [poll os_silent fst]. lia.
Defined.

(** Witness of [tcp_open_closes_open_descriptors]: the listen run that
    closes descriptors 3, 7 and 4. *)
Lemma tcp_open_closes_open_descriptors_witness :
  exists o,
    tcp_open os 20 h0 "tcp://localhost:5000?listen=1" 0 w_listen_bind_fails
      = Some o
    /\ In (EvClose 7) (o_hist o)
    /\ forall s t,
         moment (EvClose s :: t) (o_hist o) -> In s (open_fds (rev t)).
Proof.
  eexists. split; [vm_compute; reflexivity|].
  split; [cbn [o_hist]; simpl; tauto|].
  refine (tcp_open_closes_open_descriptors os 20 h0
            "tcp://localhost:5000?listen=1" 0 w_listen_bind_fails _ _).
  vm_compute. reflexivity.
Defined.

(** Witness of [tcp_open_then_close]. *)
Lemma tcp_open_then_close_witness :
  exists o,
    tcp_open os 20 h0 "tcp://localhost:5000" 0 (w_in_progress None) = Some o
    /\ exists s,
         tcp_get_file_handle (o_h o) = Some s
         /\ tcp_close os (o_h o) (o_world o)
            = Some (0, av_free os (closesocket os s (o_world o)),
                    [EvClose s; EvFree])
         /\ open_fds (rev (o_hist o) ++ [EvClose s; EvFree]) = []
         /\ faithful os (w_in_progress None) (EvFree :: EvClose s :: o_hist o)
              (av_free os (closesocket os s (o_world o))).
Proof.
  eexists. split; [vm_compute; reflexivity|].
  refine (tcp_open_then_close os 20 h0 "tcp://localhost:5000" 0
            (w_in_progress None) _ _ _).
  - vm_compute. reflexivity.
  - reflexivity.
Defined.

(** Witness of [tcp_open_connect_mode]. *)
Lemma tcp_open_connect_mode_witness :
  exists o,
    tcp_open os 20 h0 "tcp://localhost:5000" 0 (w_in_progress None) = Some o
    /\ listen_calls (o_hist o) = false.
Proof.
  eexists. split; [vm_compute; reflexivity|].
  refine (tcp_open_connect_mode os 20 h0 "tcp://localhost:5000" 0
            (w_in_progress None) _ _ _).
  - reflexivity.
  - vm_compute. reflexivity.
Defined.

(** Witness of [tcp_open_accept_protocol]: the listen run with two
    accepts. *)
Lemma tcp_open_accept_protocol_witness :
  exists o,
    tcp_open os 20 h0 "tcp://localhost:5000?listen=1" 0 w_listen_bind_fails
      = Some o
    /\ In (EvAccept 4 8) (o_hist o)
    /\ forall s s1 t,
         moment (EvAccept s s1 :: t) (o_hist o) ->
         0 <= s
         /\ (exists cur r lr t',
               t = EvListen s 1 lr
                     :: EvBind s (ai_addr cur) (ai_addrlen cur) r
                     :: EvSocket cur s :: t')
         /\ moment (EvClose s :: EvAccept s s1 :: t) (o_hist o).
Proof.
  eexists. split; [vm_compute; reflexivity|].
  split; [cbn [o_hist]; simpl; tauto|].
  refine (tcp_open_accept_protocol os 20 h0 "tcp://localhost:5000?listen=1"
            0 w_listen_bind_fails _ _).
  vm_compute. reflexivity.
Defined.

(** Witness of [tcp_open_abort_is_immediate]: the predicate asserted at
    the head of a turn of the wait loop; asserted at the check after an
    interrupted connect; and, in a run of [tcp_open], asserted during a
    poll slice that times out. *)
Lemma tcp_open_abort_is_immediate_witness :
  run os 0 "localhost" 5000 [addr4; addr6] h0 2
    (c_waiting (mk_sworld [] 0 3 (Some 3%nat) [addr4; addr6]))
    = Some (mk_outcome AVERROR_EXIT h0
              (mk_sworld [] 0 3 (Some 3%nat) [addr4; addr6])
              [EvFreeaddrinfo; EvClose 3; EvInterrupt 1])
  /\ run os 0 "localhost" 5000 [addr4; addr6] h0 2
       (mk_config L_nonblock 3 (-1) addr4 [addr6]
          (mk_sworld [(0, 0); (1, 0)] EINTR 3 (Some 3%nat) [addr4; addr6])
          [EvConnect 3 (ai_addr addr4) (ai_addrlen addr4) (-1); EvSocket addr4 3])
     = Some (mk_outcome AVERROR_EXIT h0
               (mk_sworld [(0, 0); (1, 0)] EINTR 3 (Some 3%nat) [addr4; addr6])
               [EvFreeaddrinfo; EvClose 3;
                EvInterrupt 1; EvNeterrno (AVERROR EINTR); EvNonblock 3 1;
                EvConnect 3 (ai_addr addr4) (ai_addrlen addr4) (-1);
                EvSocket addr4 3])
  /\ (exists o,
        tcp_open os 20 h0 "tcp://localhost:5000" 0
          (world_of [(0, 0); (3, 0); (-1, EINPROGRESS); (0, 0)] (Some 4%nat))
          = Some o
        /\ faithful os
             (world_of [(0, 0); (3, 0); (-1, EINPROGRESS); (0, 0)] (Some 4%nat))
             (o_hist o) (o_world o)
        /\ exists i t,
             i <> 0 /\ aborted t = false
             /\ (o_hist o = EvFreeaddrinfo :: EvInterrupt i :: t
                 \/ exists s,
                      o_hist o = EvFreeaddrinfo :: EvClose s :: EvInterrupt i :: t)).
Proof.
  split; [|split].
  - refine (proj1 (tcp_open_abort_is_immediate os) 0 "localhost"%string 5000
              [addr4; addr6] h0
              (c_waiting (mk_sworld [] 0 3 (Some 3%nat) [addr4; addr6]))
              1 _ 0%nat eq_refl eq_refl _).
    discriminate.
  - refine (proj1 (proj2 (tcp_open_abort_is_immediate os)) 0 "localhost"%string
              5000 [addr4; addr6] h0
              (mk_config L_nonblock 3 (-1) addr4 [addr6]
                 (mk_sworld [(0, 0); (1, 0)] EINTR 3 (Some 3%nat) [addr4; addr6])
                 [EvConnect 3 (ai_addr addr4) (ai_addrlen addr4) (-1);
                  EvSocket addr4 3])
              1 _ 0%nat eq_refl _ eq_refl eq_refl _).
    + vm_compute. reflexivity.
    + discriminate.
  - eexists. split; [vm_compute; reflexivity|].
    destruct (proj2 (proj2 (tcp_open_abort_is_immediate os)) 20%nat h0
                "tcp://localhost:5000"%string 0
                (world_of [(0, 0); (3, 0); (-1, EINPROGRESS); (0, 0)] (Some 4%nat))
                _ ltac:(vm_compute; reflexivity)) as (Hf & Hab).
    split; [exact Hf|exact (Hab eq_refl)].
Defined.

(** Witness of [tcp_io_wait_failure]: a read whose wait fails with
    EAGAIN, and a write whose wait does. *)
Lemma tcp_io_wait_failure_witness :
  tcp_read os h_blocking [] 16 w_wait_fails
    = Some (mk_io_result (AVERROR EAGAIN) [] (snd (answer w_wait_fails))
              [EvWait 3 0 (AVERROR EAGAIN)])
  /\ tcp_write os h_blocking [Byte.x68; Byte.x69] 2 w_wait_fails
    = Some (mk_io_result (AVERROR EAGAIN) [Byte.x68; Byte.x69]
              (snd (answer w_wait_fails)) [EvWait 3 1 (AVERROR EAGAIN)]).
Proof.
  split.
  - refine (proj1 (tcp_io_wait_failure os h_blocking (mk_TCPContext 3) [] 16
                     w_wait_fails eq_refl eq_refl) _ _ eq_refl _).
    vm_compute. reflexivity.
  - refine (proj2 (tcp_io_wait_failure os h_blocking (mk_TCPContext 3)
                     [Byte.x68; Byte.x69] 2
                     w_wait_fails eq_refl eq_refl) _ _ eq_refl _).
    vm_compute. reflexivity.
Defined.

End MoreScenarios.
